(** * WebGL direct volume rendering demo: shaders and renderer

    A shallow embedding of the two halves of the demo:

    - [GLSL]: the fragment shader [volume-fs] of the demo page
      ([sampleVolume], [integrateVolume], [main]).  GLSL [float] values are
      read as real numbers (no rounding, no NaN), GLSL [int] values as
      integers (no overflow).
    - [JS]: the host code of [js/volumerenderer.js] ([FrameBuffer],
      [ShaderProgram], [VolumeCubeDomain], [FullscreenQuad],
      [VolumeRenderer]) as state transformers over a small model of the
      WebGL context.  JavaScript numbers are read as rationals. *)

From Stdlib Require Import Reals Lra Lia ZArith QArith Bool List String.
Import ListNotations.

(** ** The fragment shader [volume-fs] *)

Module GLSL.
Local Open Scope R_scope.

(** *** Vector types and built-in functions *)

Record vec2 := Vec2 { x2 : R; y2 : R }.
Record vec3 := Vec3 { x3 : R; y3 : R; z3 : R }.
Record vec4 := Vec4 { r4 : R; g4 : R; b4 : R; a4 : R }.

(** Swizzles [v.xy], [v.xyz] and [v.rgb]. *)
Definition xy (v : vec3) : vec2 := Vec2 (x3 v) (y3 v).
Definition xyz (v : vec4) : vec3 := Vec3 (r4 v) (g4 v) (b4 v).
Definition rgb (v : vec4) : vec3 := Vec3 (r4 v) (g4 v) (b4 v).

(** Component-wise arithmetic. *)
Definition add2 (u v : vec2) : vec2 := Vec2 (x2 u + x2 v) (y2 u + y2 v).
Definition mul2 (u v : vec2) : vec2 := Vec2 (x2 u * x2 v) (y2 u * y2 v).
Definition add3 (u v : vec3) : vec3 :=
  Vec3 (x3 u + x3 v) (y3 u + y3 v) (z3 u + z3 v).
Definition sub3 (u v : vec3) : vec3 :=
  Vec3 (x3 u - x3 v) (y3 u - y3 v) (z3 u - z3 v).
Definition mul3 (u v : vec3) : vec3 :=
  Vec3 (x3 u * x3 v) (y3 u * y3 v) (z3 u * z3 v).

(** The constructor [vec3(f)] with one scalar argument. *)
Definition splat3 (f : R) : vec3 := Vec3 f f f.

(** [length(v)]. *)
Definition length3 (v : vec3) : R :=
  sqrt (x3 v * x3 v + y3 v * y3 v + z3 v * z3 v).

(** [normalize(v)]: [v / length(v)].  GLSL leaves the zero vector undefined;
    here it is whatever division by zero gives. *)
Definition normalize (v : vec3) : vec3 :=
  Vec3 (x3 v / length3 v) (y3 v / length3 v) (z3 v / length3 v).

(** GLSL [floor]: the largest integer not above [x], as a float. *)
Definition floor (x : R) : R := IZR (Int_part x).

(** GLSL [ceil]: the smallest integer not below [x], as a float. *)
Definition ceil (x : R) : R := - floor (- x).

(** [float(n)] for an [int] n. *)
Definition float (n : Z) : R := IZR n.

(** [int(x)] for a [float] x: truncation towards zero. *)
Definition int (x : R) : Z :=
  if Rle_dec 0 x then Int_part x else (- Int_part (- x))%Z.

(** GLSL [mod(x, y)], which is [x - y * floor(x / y)]. *)
Definition fmod (x y : R) : R := x - y * floor (x / y).

(** GLSL [pow(x, y)].  It is undefined for [x < 0]; texel values are never
    negative, and the model returns 0 there as it does at [x = 0]. *)
Definition powf (x y : R) : R :=
  if Rlt_dec 0 x then Rpower x y else 0.

(** Comparisons of floats, as booleans. *)
Definition Rgtb (x y : R) : bool := if Rgt_dec x y then true else false.
Definition Rltb (x y : R) : bool := if Rlt_dec x y then true else false.

(** A [sampler2D] together with the texture bound to it and its filtering:
    the color it returns at each texture coordinate. *)
Definition sampler2D := vec2 -> vec4.
Definition texture2D (s : sampler2D) (uv : vec2) : vec4 := s uv.

(** *** The shader, over its uniforms *)

Section VolumeShader.

Variables uEntryPointsSampler uExitPointsSampler uVolumeTexture : sampler2D.
Variables uNumSlices uSlicesPerRow : Z.
Variables uSliceWidth uSliceHeight : R.

(** [float sampleVolume(vec3 pos)]. *)
Definition sampleVolume (pos : vec3) : R :=
  let sliceBelow := floor (z3 pos * float (uNumSlices - 1)) in
  let sliceAbove := ceil (z3 pos * float (uNumSlices - 1)) in
  let belowSliceUV :=
    Vec2 (fmod sliceBelow (float uSlicesPerRow))
         (float (int sliceBelow ÷ uSlicesPerRow)) in
  let aboveSliceUV :=
    Vec2 (fmod sliceAbove (float uSlicesPerRow))
         (float (int sliceAbove ÷ uSlicesPerRow)) in
  let belowSliceUV :=
    mul2 (add2 belowSliceUV (xy pos)) (Vec2 uSliceWidth uSliceHeight) in
  let aboveSliceUV :=
    mul2 (add2 aboveSliceUV (xy pos)) (Vec2 uSliceWidth uSliceHeight) in
  let valueBelow := r4 (texture2D uVolumeTexture belowSliceUV) in
  if Req_dec_T sliceBelow sliceAbove then valueBelow
  else
    let valueAbove := r4 (texture2D uVolumeTexture aboveSliceUV) in
    let a := sliceAbove - z3 pos * float (uNumSlices - 1) in
    valueAbove * (1 - a) + valueBelow * a.

(** The tile origin [sampleVolume] computes for a slice index (the
    [vec2(mod(..), float(int(..) / uSlicesPerRow))] of its lines for
    [belowSliceUV] and [aboveSliceUV]). *)
Definition tileOrigin (slice : R) : vec2 :=
  Vec2 (fmod slice (float uSlicesPerRow)) (float (int slice ÷ uSlicesPerRow)).

(** The texel [sampleVolume] fetches for a slice index at [pos.xy]. *)
Definition sliceSample (slice : R) (pos : vec3) : R :=
  r4 (texture2D uVolumeTexture
        (mul2 (add2 (tileOrigin slice) (xy pos))
              (Vec2 uSliceWidth uSliceHeight))).

(** The atlas grid of the specification: [uSlicesPerRow] columns and
    [ceil(uNumSlices / uSlicesPerRow)] rows. *)
Definition atlasRows : Z := (uNumSlices + uSlicesPerRow - 1) / uSlicesPerRow.

Definition inAtlasGrid (origin : vec2) : Prop :=
  0 <= x2 origin < IZR uSlicesPerRow /\ 0 <= y2 origin < IZR atlasRows.

(** The local [float step = 0.01]. *)
Definition step : R := 0.01.

(** The hardcoded transfer function of the loop body: absorption with its
    low cutoff, the per-step opacity, and the tint. *)
Definition tfAbsorbtion (sample : R) : R :=
  let tfAbsorbtion := powf sample 1.1 in
  if Rltb tfAbsorbtion 0.05 then 0 else tfAbsorbtion.

Definition tfOpacity (sample : R) : R :=
  1 - exp (- step * tfAbsorbtion sample * 40).

Definition sampleColor (sample : R) : vec3 :=
  let sampleColor := splat3 (sample * 1) in
  if Rgtb sample 0.35
  then Vec3 0.6 (y3 sampleColor) (z3 sampleColor)
  else Vec3 (x3 sampleColor) (y3 sampleColor) (z3 sampleColor + 0.1).

(** The composite step: the two assignments to [color.rgb] and [color.a]. *)
Definition composite (sample : R) (color : vec4) : vec4 :=
  let c := add3 (mul3 (mul3 (sampleColor sample) (splat3 (tfOpacity sample)))
                      (splat3 (1 - a4 color)))
                (rgb color) in
  Vec4 (x3 c) (y3 c) (z3 c) (tfOpacity sample * (1 - a4 color) + a4 color).

(** The variables the loop of [integrateVolume] changes. *)
Record LoopState := { i : Z; depth : R; color : vec4 }.

(** One turn of [for (int i = 0; i < 10000; ++i) { ... }]: [None] when the
    loop is left, by its condition or by [break]. *)
Definition loopIter (entryPoint vector : vec3) (thickness : R)
    (st : LoopState) : option LoopState :=
  if (i st <? 10000)%Z then
    if Rgtb (depth st) thickness || Rgtb (a4 (color st)) 0.98 then None
    else
      let sample :=
        sampleVolume (add3 entryPoint (mul3 vector (splat3 (depth st)))) in
      Some {| i := i st + 1;
              depth := depth st + step;
              color := composite sample (color st) |}
  else None.

(** At most [fuel] turns of the loop.  The counter [i] stops it after 10000
    turns, so that much fuel runs it to its end. *)
Fixpoint loopRun (entryPoint vector : vec3) (thickness : R)
    (fuel : nat) (st : LoopState) : LoopState :=
  match fuel with
  | O => st
  | S fuel' =>
      match loopIter entryPoint vector thickness st with
      | None => st
      | Some st' => loopRun entryPoint vector thickness fuel' st'
      end
  end.

(** The loop variables on entry to the loop. *)
Definition loopStart : LoopState :=
  {| i := 0; depth := 0; color := Vec4 0 0 0 0 |}.

(** The loop variables of [integrateVolume entryPoint exitPoint] after at
    most [n] turns of its loop. *)
Definition integrateTrace (entryPoint exitPoint : vec3) (n : nat) : LoopState :=
  loopRun entryPoint (normalize (sub3 exitPoint entryPoint))
    (length3 (sub3 exitPoint entryPoint)) n loopStart.

(** [vec4 integrateVolume(vec3 entryPoint, vec3 exitPoint)]. *)
Definition integrateVolume (entryPoint exitPoint : vec3) : vec4 :=
  let vector := sub3 exitPoint entryPoint in
  let thickness := length3 vector in
  let vector := normalize vector in
  color
    (loopRun entryPoint vector thickness (Z.to_nat 10000)
       {| i := 0; depth := 0; color := Vec4 0 0 0 0 |}).

(** [void main(void)] of [volume-fs]: the value left in [gl_FragColor].
    The locals [thickness] and [absorbtion] of the second branch are computed
    and never used. *)
Definition main (vUV : vec2) : vec4 :=
  let entryPoint := texture2D uEntryPointsSampler vUV in
  let exitPoint := texture2D uExitPointsSampler vUV in
  if Rltb (a4 entryPoint) 0.1 || Rltb (a4 exitPoint) 0.1
  then Vec4 0 0 0 0
  else
    let color := integrateVolume (xyz entryPoint) (xyz exitPoint) in
    color.

End VolumeShader.

End GLSL.

(** ** The host code: [js/volumerenderer.js] *)

Module JS.
Local Open Scope string_scope.
Local Open Scope Q_scope.

(** *** The WebGL context *)

Inductive DepthFunc := LESS | GREATER.
Inductive DataType := UNSIGNED_BYTE | FLOAT.
Inductive DrawMode := TRIANGLES | TRIANGLE_FAN.
Inductive ShaderType := VERTEX_SHADER | FRAGMENT_SHADER.

(** The matrices [_setMatrices] builds with the gl-matrix library, kept as
    the data they are built from: the model-view matrix
    [lookAt(orbit(angle), origin, z) * scale(w, h, d)] and the projection
    [perspective(45/180*3.14, aspect, 0.1, 100.0)]. *)
Inductive Mat4 :=
| ModelView (angle w h d : Q)
| Perspective (aspect : Q).

Inductive UniformValue :=
| UInt (n : Z)
| UFloat (x : Q)
| UMatrix (m : Mat4).

(** Objects of the context are named by handles. *)
Definition Handle := nat.

(** A [WebGLUniformLocation]: a uniform name of one program. *)
Definition Location := (Handle * string)%type.

(** A [WebGLShader]: its type and the script element its source came from. *)
Definition Shader := (ShaderType * string)%type.

(** Tables keyed by handles or texture units, and by names.  A key is kept
    once; writing it again replaces its value in place. *)
Fixpoint lookupN {A} (k : nat) (l : list (nat * A)) : option A :=
  match l with
  | [] => None
  | (k', v) :: l' => if Nat.eqb k k' then Some v else lookupN k l'
  end.

Fixpoint storeN {A} (k : nat) (v : A) (l : list (nat * A)) : list (nat * A) :=
  match l with
  | [] => [(k, v)]
  | (k', v') :: l' =>
      if Nat.eqb k k' then (k, v) :: l' else (k', v') :: storeN k v l'
  end.

Fixpoint lookupS {A} (k : string) (l : list (string * A)) : option A :=
  match l with
  | [] => None
  | (k', v) :: l' => if String.eqb k k' then Some v else lookupS k l'
  end.

Fixpoint storeS {A} (k : string) (v : A) (l : list (string * A))
    : list (string * A) :=
  match l with
  | [] => [(k, v)]
  | (k', v') :: l' =>
      if String.eqb k k' then (k, v) :: l' else (k', v') :: storeS k v l'
  end.

(** A [WebGLProgram]: the attached shaders, the link status, whether it was
    deleted, and the values of its uniforms. *)
Record ProgramObject := {
  po_vertex : option string;
  po_fragment : option string;
  po_linked : bool;
  po_deleted : bool;
  po_uniforms : list (string * UniformValue)
}.

(** The [Image] of the volume texture: the parameters its [onload] closure
    captured and, once loaded, its size in pixels. *)
Record Image := {
  src : option string;
  onload_slices : Z;
  onload_slicesPerRow : Z;
  onload_sliceWidth : Z;
  onload_sliceHeight : Z;
  width : Z;
  height : Z
}.

(** A [WebGLTexture] with the properties the script sets on it. *)
Record TextureObject := {
  image : option Image;
  isLoaded : bool
}.

(** What a draw call works with. *)
Record Snapshot := {
  target : option Handle;
  program_in_use : option Handle;
  depth_test : bool;
  depth_func : DepthFunc;
  uniform_values : list (string * UniformValue);
  texture_units : list (nat * option Handle)
}.

(** The calls that write to a render target: [gl.clear] with the bound
    framebuffer ([None] is the canvas), the clear color and the clear depth
    ([gl.clearDepth] is recorded as called; the context clamps it to [0,1]),
    and [gl.drawElements] / [gl.drawArrays] with the vertex count. *)
Inductive Event :=
| Clear (fb : option Handle) (color : Q * Q * Q * Q) (depth : Q)
| Draw (mode : DrawMode) (count : Z) (s : Snapshot).

Record GLContext := {
  viewportWidth : Q;
  viewportHeight : Q;
  nextHandle : Handle;
  programs : list (Handle * ProgramObject);
  textureObjects : list (Handle * TextureObject);
  currentProgram : option Handle;
  framebufferBinding : option Handle;
  activeTextureUnit : nat;
  textureBindings : list (nat * option Handle);
  depthTest : bool;
  depthFuncValue : DepthFunc;
  clearDepthValue : Q;
  clearColorValue : Q * Q * Q * Q;
  events : list Event
}.

Definition set_viewportWidth (v : Q) (x : GLContext) : GLContext :=
  {| viewportWidth := v; viewportHeight := viewportHeight x;
     nextHandle := nextHandle x; programs := programs x;
     textureObjects := textureObjects x; currentProgram := currentProgram x;
     framebufferBinding := framebufferBinding x;
     activeTextureUnit := activeTextureUnit x;
     textureBindings := textureBindings x; depthTest := depthTest x;
     depthFuncValue := depthFuncValue x;
     clearDepthValue := clearDepthValue x;
     clearColorValue := clearColorValue x; events := events x |}.
Definition set_viewportHeight (v : Q) (x : GLContext) : GLContext :=
  {| viewportWidth := viewportWidth x; viewportHeight := v;
     nextHandle := nextHandle x; programs := programs x;
     textureObjects := textureObjects x; currentProgram := currentProgram x;
     framebufferBinding := framebufferBinding x;
     activeTextureUnit := activeTextureUnit x;
     textureBindings := textureBindings x; depthTest := depthTest x;
     depthFuncValue := depthFuncValue x;
     clearDepthValue := clearDepthValue x;
     clearColorValue := clearColorValue x; events := events x |}.
Definition set_nextHandle (v : Handle) (x : GLContext) : GLContext :=
  {| viewportWidth := viewportWidth x; viewportHeight := viewportHeight x;
     nextHandle := v; programs := programs x;
     textureObjects := textureObjects x; currentProgram := currentProgram x;
     framebufferBinding := framebufferBinding x;
     activeTextureUnit := activeTextureUnit x;
     textureBindings := textureBindings x; depthTest := depthTest x;
     depthFuncValue := depthFuncValue x;
     clearDepthValue := clearDepthValue x;
     clearColorValue := clearColorValue x; events := events x |}.
Definition set_programs (v : list (Handle * ProgramObject))
    (x : GLContext) : GLContext :=
  {| viewportWidth := viewportWidth x; viewportHeight := viewportHeight x;
     nextHandle := nextHandle x; programs := v;
     textureObjects := textureObjects x; currentProgram := currentProgram x;
     framebufferBinding := framebufferBinding x;
     activeTextureUnit := activeTextureUnit x;
     textureBindings := textureBindings x; depthTest := depthTest x;
     depthFuncValue := depthFuncValue x;
     clearDepthValue := clearDepthValue x;
     clearColorValue := clearColorValue x; events := events x |}.
Definition set_textureObjects (v : list (Handle * TextureObject))
    (x : GLContext) : GLContext :=
  {| viewportWidth := viewportWidth x; viewportHeight := viewportHeight x;
     nextHandle := nextHandle x; programs := programs x; textureObjects := v;
     currentProgram := currentProgram x;
     framebufferBinding := framebufferBinding x;
     activeTextureUnit := activeTextureUnit x;
     textureBindings := textureBindings x; depthTest := depthTest x;
     depthFuncValue := depthFuncValue x;
     clearDepthValue := clearDepthValue x;
     clearColorValue := clearColorValue x; events := events x |}.
Definition set_currentProgram (v : option Handle)
    (x : GLContext) : GLContext :=
  {| viewportWidth := viewportWidth x; viewportHeight := viewportHeight x;
     nextHandle := nextHandle x; programs := programs x;
     textureObjects := textureObjects x; currentProgram := v;
     framebufferBinding := framebufferBinding x;
     activeTextureUnit := activeTextureUnit x;
     textureBindings := textureBindings x; depthTest := depthTest x;
     depthFuncValue := depthFuncValue x;
     clearDepthValue := clearDepthValue x;
     clearColorValue := clearColorValue x; events := events x |}.
Definition set_framebufferBinding (v : option Handle)
    (x : GLContext) : GLContext :=
  {| viewportWidth := viewportWidth x; viewportHeight := viewportHeight x;
     nextHandle := nextHandle x; programs := programs x;
     textureObjects := textureObjects x; currentProgram := currentProgram x;
     framebufferBinding := v; activeTextureUnit := activeTextureUnit x;
     textureBindings := textureBindings x; depthTest := depthTest x;
     depthFuncValue := depthFuncValue x;
     clearDepthValue := clearDepthValue x;
     clearColorValue := clearColorValue x; events := events x |}.
Definition set_activeTextureUnit (v : nat) (x : GLContext) : GLContext :=
  {| viewportWidth := viewportWidth x; viewportHeight := viewportHeight x;
     nextHandle := nextHandle x; programs := programs x;
     textureObjects := textureObjects x; currentProgram := currentProgram x;
     framebufferBinding := framebufferBinding x; activeTextureUnit := v;
     textureBindings := textureBindings x; depthTest := depthTest x;
     depthFuncValue := depthFuncValue x;
     clearDepthValue := clearDepthValue x;
     clearColorValue := clearColorValue x; events := events x |}.
Definition set_textureBindings (v : list (nat * option Handle))
    (x : GLContext) : GLContext :=
  {| viewportWidth := viewportWidth x; viewportHeight := viewportHeight x;
     nextHandle := nextHandle x; programs := programs x;
     textureObjects := textureObjects x; currentProgram := currentProgram x;
     framebufferBinding := framebufferBinding x;
     activeTextureUnit := activeTextureUnit x; textureBindings := v;
     depthTest := depthTest x; depthFuncValue := depthFuncValue x;
     clearDepthValue := clearDepthValue x;
     clearColorValue := clearColorValue x; events := events x |}.
Definition set_depthTest (v : bool) (x : GLContext) : GLContext :=
  {| viewportWidth := viewportWidth x; viewportHeight := viewportHeight x;
     nextHandle := nextHandle x; programs := programs x;
     textureObjects := textureObjects x; currentProgram := currentProgram x;
     framebufferBinding := framebufferBinding x;
     activeTextureUnit := activeTextureUnit x;
     textureBindings := textureBindings x; depthTest := v;
     depthFuncValue := depthFuncValue x;
     clearDepthValue := clearDepthValue x;
     clearColorValue := clearColorValue x; events := events x |}.
Definition set_depthFuncValue (v : DepthFunc) (x : GLContext) : GLContext :=
  {| viewportWidth := viewportWidth x; viewportHeight := viewportHeight x;
     nextHandle := nextHandle x; programs := programs x;
     textureObjects := textureObjects x; currentProgram := currentProgram x;
     framebufferBinding := framebufferBinding x;
     activeTextureUnit := activeTextureUnit x;
     textureBindings := textureBindings x; depthTest := depthTest x;
     depthFuncValue := v; clearDepthValue := clearDepthValue x;
     clearColorValue := clearColorValue x; events := events x |}.
Definition set_clearDepthValue (v : Q) (x : GLContext) : GLContext :=
  {| viewportWidth := viewportWidth x; viewportHeight := viewportHeight x;
     nextHandle := nextHandle x; programs := programs x;
     textureObjects := textureObjects x; currentProgram := currentProgram x;
     framebufferBinding := framebufferBinding x;
     activeTextureUnit := activeTextureUnit x;
     textureBindings := textureBindings x; depthTest := depthTest x;
     depthFuncValue := depthFuncValue x; clearDepthValue := v;
     clearColorValue := clearColorValue x; events := events x |}.
Definition set_clearColorValue (v : Q * Q * Q * Q)
    (x : GLContext) : GLContext :=
  {| viewportWidth := viewportWidth x; viewportHeight := viewportHeight x;
     nextHandle := nextHandle x; programs := programs x;
     textureObjects := textureObjects x; currentProgram := currentProgram x;
     framebufferBinding := framebufferBinding x;
     activeTextureUnit := activeTextureUnit x;
     textureBindings := textureBindings x; depthTest := depthTest x;
     depthFuncValue := depthFuncValue x;
     clearDepthValue := clearDepthValue x; clearColorValue := v;
     events := events x |}.
Definition set_events (v : list Event) (x : GLContext) : GLContext :=
  {| viewportWidth := viewportWidth x; viewportHeight := viewportHeight x;
     nextHandle := nextHandle x; programs := programs x;
     textureObjects := textureObjects x; currentProgram := currentProgram x;
     framebufferBinding := framebufferBinding x;
     activeTextureUnit := activeTextureUnit x;
     textureBindings := textureBindings x; depthTest := depthTest x;
     depthFuncValue := depthFuncValue x;
     clearDepthValue := clearDepthValue x;
     clearColorValue := clearColorValue x; events := v |}.

(** A context as [getContext] hands it out. *)
Definition freshContext : GLContext :=
  {| viewportWidth := 0; viewportHeight := 0; nextHandle := 0%nat;
     programs := []; textureObjects := []; currentProgram := None;
     framebufferBinding := None; activeTextureUnit := 0%nat;
     textureBindings := []; depthTest := false; depthFuncValue := LESS;
     clearDepthValue := 1; clearColorValue := (0, 0, 0, 0); events := [] |}.

(** [gl.useProgram]: refused (an error is flagged and nothing changes) when
    the program is deleted or not linked. *)
Definition gl_useProgram (p : Handle) (c : GLContext) : GLContext :=
  match lookupN p (programs c) with
  | Some po =>
      if po_linked po && negb (po_deleted po)
      then set_currentProgram (Some p) c else c
  | None => c
  end.

(** [gl.uniform1i], [gl.uniform1f], [gl.uniformMatrix4fv]: ignored for a
    null location and refused for a location of a program that is not the
    current one. *)
Definition gl_uniform (loc : option Location) (v : UniformValue)
    (c : GLContext) : GLContext :=
  match loc, currentProgram c with
  | Some (p, name), Some cp =>
      if Nat.eqb p cp then
        match lookupN cp (programs c) with
        | Some po =>
            set_programs
              (storeN cp
                 {| po_vertex := po_vertex po; po_fragment := po_fragment po;
                    po_linked := po_linked po; po_deleted := po_deleted po;
                    po_uniforms := storeS name v (po_uniforms po) |}
                 (programs c)) c
        | None => c
        end
      else c
  | _, _ => c
  end.

(** [gl.bindTexture(gl.TEXTURE_2D, t)] binds on the active unit. *)
Definition gl_bindTexture (t : option Handle) (c : GLContext) : GLContext :=
  set_textureBindings (storeN (activeTextureUnit c) t (textureBindings c)) c.

Definition snapshot (c : GLContext) : Snapshot :=
  {| target := framebufferBinding c;
     program_in_use := currentProgram c;
     depth_test := depthTest c;
     depth_func := depthFuncValue c;
     uniform_values :=
       match currentProgram c with
       | Some cp =>
           match lookupN cp (programs c) with
           | Some po => po_uniforms po
           | None => []
           end
       | None => []
       end;
     texture_units := textureBindings c |}.

(** [gl.clear(gl.COLOR_BUFFER_BIT | gl.DEPTH_BUFFER_BIT)]. *)
Definition gl_clear (c : GLContext) : GLContext :=
  set_events
    (events c ++ [Clear (framebufferBinding c) (clearColorValue c)
                        (clearDepthValue c)]) c.

(** [gl.drawElements] and [gl.drawArrays]. *)
Definition gl_draw (mode : DrawMode) (count : Z) (c : GLContext) : GLContext :=
  set_events (events c ++ [Draw mode count (snapshot c)]) c.

(** *** The objects of the script *)

Inductive WebGLRenderingContext := TheContext.

Record Canvas := { canvas_width : Q; canvas_height : Q }.

Record Anim := { angle : Q }.

Record FrameBuffer := {
  fb : Handle;
  fb_width : Q;
  fb_height : Q;
  dataType : DataType;
  fbTexture : Handle;
  depthBuffer : option Handle
}.

Record ShaderProgram := {
  vs : option Shader;
  fs : option Shader;
  program : Handle;
  attributes : list (string * Z);
  uniforms : list (string * option Location)
}.

Record Buffer := { buffer : Handle; itemSize : Z; numItems : Z }.

Record CubeDimensions := { w : Q; h : Q; d : Q }.

Record VolumeCubeDomain := {
  sliceWidth : Z;
  sliceHeight : Z;
  slices : Z;
  slicesPerRow : Z;
  cubeDimensions : CubeDimensions;
  cubeVertexBuffer : Buffer;
  cubeIndexBuffer : Buffer
}.

Record FullscreenQuad := { vertexBuffer : Buffer }.

Record Framebuffers := {
  exitpoints : option FrameBuffer;
  entrypoints : option FrameBuffer
}.

Record Textures := { volume_texture : option Handle }.

Record Shaders := {
  entryExitPoints : option ShaderProgram;
  volume : option ShaderProgram
}.

Record VolumeRenderer := {
  gl : option WebGLRenderingContext;
  canvas : option Canvas;
  anim : option Anim;
  framebuffers : Framebuffers;
  textures : Textures;
  shaders : Shaders;
  domainCube : option VolumeCubeDomain;
  viewportQuad : option FullscreenQuad
}.

Definition set_gl (v : option WebGLRenderingContext)
    (x : VolumeRenderer) : VolumeRenderer :=
  {| gl := v; canvas := canvas x; anim := anim x;
     framebuffers := framebuffers x; textures := textures x;
     shaders := shaders x; domainCube := domainCube x;
     viewportQuad := viewportQuad x |}.
Definition set_canvas (v : option Canvas)
    (x : VolumeRenderer) : VolumeRenderer :=
  {| gl := gl x; canvas := v; anim := anim x; framebuffers := framebuffers x;
     textures := textures x; shaders := shaders x;
     domainCube := domainCube x; viewportQuad := viewportQuad x |}.
Definition set_anim (v : option Anim) (x : VolumeRenderer) : VolumeRenderer :=
  {| gl := gl x; canvas := canvas x; anim := v;
     framebuffers := framebuffers x; textures := textures x;
     shaders := shaders x; domainCube := domainCube x;
     viewportQuad := viewportQuad x |}.
Definition set_framebuffers (v : Framebuffers)
    (x : VolumeRenderer) : VolumeRenderer :=
  {| gl := gl x; canvas := canvas x; anim := anim x; framebuffers := v;
     textures := textures x; shaders := shaders x;
     domainCube := domainCube x; viewportQuad := viewportQuad x |}.
Definition set_textures (v : Textures)
    (x : VolumeRenderer) : VolumeRenderer :=
  {| gl := gl x; canvas := canvas x; anim := anim x;
     framebuffers := framebuffers x; textures := v; shaders := shaders x;
     domainCube := domainCube x; viewportQuad := viewportQuad x |}.
Definition set_shaders (v : Shaders) (x : VolumeRenderer) : VolumeRenderer :=
  {| gl := gl x; canvas := canvas x; anim := anim x;
     framebuffers := framebuffers x; textures := textures x; shaders := v;
     domainCube := domainCube x; viewportQuad := viewportQuad x |}.
Definition set_domainCube (v : option VolumeCubeDomain)
    (x : VolumeRenderer) : VolumeRenderer :=
  {| gl := gl x; canvas := canvas x; anim := anim x;
     framebuffers := framebuffers x; textures := textures x;
     shaders := shaders x; domainCube := v; viewportQuad := viewportQuad x |}.
Definition set_viewportQuad (v : option FullscreenQuad)
    (x : VolumeRenderer) : VolumeRenderer :=
  {| gl := gl x; canvas := canvas x; anim := anim x;
     framebuffers := framebuffers x; textures := textures x;
     shaders := shaders x; domainCube := domainCube x; viewportQuad := v |}.

(** [new VolumeRenderer()]. *)
Definition newVolumeRenderer : VolumeRenderer :=
  {| gl := None; canvas := None; anim := None;
     framebuffers := {| exitpoints := None; entrypoints := None |};
     textures := {| volume_texture := None |};
     shaders := {| entryExitPoints := None; volume := None |};
     domainCube := None; viewportQuad := None |}.

(** *** The page: the one context, the renderer, the global [texture], and
    what was shown with [alert] and [console.error] *)

Record World := {
  context : GLContext;
  this : VolumeRenderer;
  texture : option Handle;
  alerts : list string;
  consoleErrors : list string
}.

Definition set_context (v : GLContext) (x : World) : World :=
  {| context := v; this := this x; texture := texture x; alerts := alerts x;
     consoleErrors := consoleErrors x |}.
Definition set_this (v : VolumeRenderer) (x : World) : World :=
  {| context := context x; this := v; texture := texture x;
     alerts := alerts x; consoleErrors := consoleErrors x |}.
Definition set_texture (v : option Handle) (x : World) : World :=
  {| context := context x; this := this x; texture := v; alerts := alerts x;
     consoleErrors := consoleErrors x |}.
Definition set_alerts (v : list string) (x : World) : World :=
  {| context := context x; this := this x; texture := texture x; alerts := v;
     consoleErrors := consoleErrors x |}.
Definition set_consoleErrors (v : list string) (x : World) : World :=
  {| context := context x; this := this x; texture := texture x;
     alerts := alerts x; consoleErrors := v |}.

Definition startWorld : World :=
  {| context := freshContext; this := newVolumeRenderer; texture := None;
     alerts := []; consoleErrors := [] |}.

(** *** Statements: state, and completion by value or by exception *)

Inductive Completion (A : Type) :=
| Normal (a : A)
| Throw (e : string).
Arguments Normal {A} a.
Arguments Throw {A} e.

Definition JSM (A : Type) : Type := World -> World * Completion A.

Definition ret {A} (a : A) : JSM A := fun wd => (wd, Normal a).

Definition bind {A B} (m : JSM A) (f : A -> JSM B) : JSM B :=
  fun wd =>
    match m wd with
    | (wd', Normal a) => f a wd'
    | (wd', Throw e) => (wd', Throw e)
    end.

Definition throw {A} (e : string) : JSM A := fun wd => (wd, Throw e).

Definition tryCatch {A} (m : JSM A) (handler : string -> JSM A) : JSM A :=
  fun wd =>
    match m wd with
    | (wd', Normal a) => (wd', Normal a)
    | (wd', Throw e) => handler e wd'
    end.

Notation "x <- m ;; k" := (bind m (fun x => k))
  (at level 61, m at next level, right associativity).
Notation "m ;; k" := (bind m (fun _ => k))
  (at level 61, right associativity).

(** Reading a property of [null] or [undefined]. *)
Definition deref {A} (o : option A) : JSM A :=
  match o with
  | Some a => ret a
  | None => throw "TypeError"
  end.

Definition getThis : JSM VolumeRenderer := fun wd => (wd, Normal (this wd)).
Definition updThis (f : VolumeRenderer -> VolumeRenderer) : JSM unit :=
  fun wd => (set_this (f (this wd)) wd, Normal tt).
Definition getGL : JSM GLContext := fun wd => (wd, Normal (context wd)).
Definition glCall (f : GLContext -> GLContext) : JSM unit :=
  fun wd => (set_context (f (context wd)) wd, Normal tt).
Definition alert (s : string) : JSM unit :=
  fun wd => (set_alerts (alerts wd ++ [s]) wd, Normal tt).
Definition console_error (s : string) : JSM unit :=
  fun wd => (set_consoleErrors (consoleErrors wd ++ [s]) wd, Normal tt).

(** The global variable [texture]. *)
Definition getGlobalTexture : JSM (option Handle) :=
  fun wd => (wd, Normal (texture wd)).
Definition setGlobalTexture (t : option Handle) : JSM unit :=
  fun wd => (set_texture t wd, Normal tt).

(** [gl.createFramebuffer], [gl.createBuffer], ...: a new handle. *)
Definition createObject : JSM Handle :=
  fun wd =>
    let c := context wd in
    (set_context (set_nextHandle (S (nextHandle c)) c) wd,
     Normal (nextHandle c)).

Definition createTexture : JSM Handle :=
  t <- createObject ;;
  glCall (fun c =>
    set_textureObjects
      (storeN t {| image := None; isLoaded := false |} (textureObjects c)) c) ;;
  ret t.

Definition createProgram : JSM Handle :=
  p <- createObject ;;
  glCall (fun c =>
    set_programs
      (storeN p {| po_vertex := None; po_fragment := None;
                   po_linked := false; po_deleted := false;
                   po_uniforms := [] |} (programs c)) c) ;;
  ret p.

(** The uniforms and attributes the shader sources of the page declare and
    use. *)
Definition shaderUniforms (shaderId : string) : list string :=
  if String.eqb shaderId "entry-exitpoints-vs"
  then ["uModelViewMatrix"; "uProjectionMatrix"]
  else if String.eqb shaderId "volume-fs"
  then ["uEntryPointsSampler"; "uExitPointsSampler"; "uVolumeTexture";
        "uNumSlices"; "uSlicesPerRow"; "uSliceWidth"; "uSliceHeight"]
  else [].

Definition shaderAttributes (shaderId : string) : list string :=
  if String.eqb shaderId "entry-exitpoints-vs" then ["aVertexPosition"]
  else if String.eqb shaderId "volume-vs" then ["aVertexPosition"]
  else [].

Definition memS (k : string) (l : list string) : bool :=
  existsb (String.eqb k) l.

Section Page.

(** What the browser and the GPU answer: whether the canvas gives a WebGL
    context, whether [OES_texture_float] is there, the compile status of the
    shader of a script element, the link status of the program of two of
    them, and whether the binding throws a [TypeError] when [null] is passed
    for a shader (it does where the argument is declared non-nullable; older
    bindings flag [INVALID_VALUE] and go on). *)
Variable webglAvailable : bool.
Variable floatTextures : bool.
Variable compiles : string -> bool.
Variable links : string -> string -> bool.
Variable strictBindings : bool.

(** **** [FrameBuffer] *)

Definition FrameBuffer_detach (self : FrameBuffer) : JSM unit :=
  glCall (gl_bindTexture None) ;;
  glCall (set_framebufferBinding None).

Definition FrameBuffer_attach (self : FrameBuffer) : JSM unit :=
  glCall (set_framebufferBinding (Some (fb self))).

Definition FrameBuffer_bindAsTexture (self : FrameBuffer) : JSM unit :=
  glCall (gl_bindTexture (Some (fbTexture self))).

(** [new FrameBuffer(gl, width, height, hasDepthBuffer, dataType)]. *)
Definition new_FrameBuffer (width height : Q) (hasDepthBuffer : bool)
    (dataType : option DataType) : JSM FrameBuffer :=
  let dataType :=
    match dataType with Some t => t | None => UNSIGNED_BYTE end in
  fb <- createObject ;;
  glCall (set_framebufferBinding (Some fb)) ;;
  fbTexture <- createTexture ;;
  glCall (gl_bindTexture (Some fbTexture)) ;;
  depthBuffer <-
    (if hasDepthBuffer then b <- createObject ;; ret (Some b)
     else ret None) ;;
  let self := {| fb := fb; fb_width := width; fb_height := height;
                 dataType := dataType; fbTexture := fbTexture;
                 depthBuffer := depthBuffer |} in
  FrameBuffer_detach self ;;
  ret self.

(** **** [ShaderProgram] *)

Definition _createShader (shaderId : string) (type : ShaderType)
    : JSM (option Shader) :=
  if compiles shaderId then ret (Some (type, shaderId))
  else alert (shaderId ++ ": compile error") ;; ret None.

(** [gl.attachShader(program, shader)]. *)
Definition attachShader (p : Handle) (shader : option Shader) : JSM unit :=
  match shader with
  | None => if strictBindings then throw "TypeError" else ret tt
  | Some (type, shaderId) =>
      glCall (fun c =>
        match lookupN p (programs c) with
        | Some po =>
            set_programs
              (storeN p
                 match type with
                 | VERTEX_SHADER =>
                     {| po_vertex := Some shaderId;
                        po_fragment := po_fragment po;
                        po_linked := po_linked po;
                        po_deleted := po_deleted po;
                        po_uniforms := po_uniforms po |}
                 | FRAGMENT_SHADER =>
                     {| po_vertex := po_vertex po;
                        po_fragment := Some shaderId;
                        po_linked := po_linked po;
                        po_deleted := po_deleted po;
                        po_uniforms := po_uniforms po |}
                 end (programs c)) c
        | None => c
        end)
  end.

(** [gl.linkProgram(program)]: links when both shaders are attached and the
    pair links. *)
Definition linkProgram (p : Handle) : JSM unit :=
  glCall (fun c =>
    match lookupN p (programs c) with
    | Some po =>
        set_programs
          (storeN p
             {| po_vertex := po_vertex po; po_fragment := po_fragment po;
                po_linked :=
                  match po_vertex po, po_fragment po with
                  | Some v, Some f => links v f
                  | _, _ => false
                  end;
                po_deleted := po_deleted po;
                po_uniforms := po_uniforms po |} (programs c)) c
    | None => c
    end).

Definition deleteProgram (p : Handle) : JSM unit :=
  glCall (fun c =>
    match lookupN p (programs c) with
    | Some po =>
        set_programs
          (storeN p
             {| po_vertex := po_vertex po; po_fragment := po_fragment po;
                po_linked := po_linked po; po_deleted := true;
                po_uniforms := po_uniforms po |} (programs c)) c
    | None => c
    end).

(** [gl.getProgramParameter(program, gl.LINK_STATUS)]. *)
Definition getLinkStatus (p : Handle) : JSM bool :=
  c <- getGL ;;
  ret match lookupN p (programs c) with
      | Some po => po_linked po
      | None => false
      end.

(** [new ShaderProgram(gl, vertShaderId, fragShaderId)]. *)
Definition new_ShaderProgram (vertShaderId fragShaderId : string)
    : JSM ShaderProgram :=
  vs <- _createShader vertShaderId VERTEX_SHADER ;;
  fs <- _createShader fragShaderId FRAGMENT_SHADER ;;
  program <- createProgram ;;
  attachShader program vs ;;
  attachShader program fs ;;
  linkProgram program ;;
  linked <- getLinkStatus program ;;
  (if negb linked
   then alert "Error in program linking:" ;; deleteProgram program
   else ret tt) ;;
  ret {| vs := vs; fs := fs; program := program;
         attributes := []; uniforms := [] |}.

Definition ShaderProgram_use (self : ShaderProgram) : JSM unit :=
  glCall (gl_useProgram (program self)).

(** Whether a program can be asked for locations, and the names active in
    it. *)
Definition usable (po : ProgramObject) : bool :=
  po_linked po && negb (po_deleted po).

Definition activeUniform (po : ProgramObject) (name : string) : bool :=
  match po_vertex po, po_fragment po with
  | Some v, Some f => memS name (shaderUniforms v ++ shaderUniforms f)
  | _, _ => false
  end.

Definition activeAttribute (po : ProgramObject) (name : string) : bool :=
  match po_vertex po with
  | Some v => memS name (shaderAttributes v)
  | None => false
  end.

(** [this.attributes[name] = gl.getAttribLocation(this.program, name)]:
    the one attribute of either vertex shader sits at index 0, and -1 stands
    for "none". *)
Definition ShaderProgram_registerAttribute (name : string)
    (self : ShaderProgram) : JSM ShaderProgram :=
  c <- getGL ;;
  let location :=
    match lookupN (program self) (programs c) with
    | Some po => if usable po && activeAttribute po name then 0%Z else (-1)%Z
    | None => (-1)%Z
    end in
  ret {| vs := vs self; fs := fs self; program := program self;
         attributes := storeS name location (attributes self);
         uniforms := uniforms self |}.

(** [this.uniforms[name] = gl.getUniformLocation(this.program, name)]. *)
Definition ShaderProgram_registerUniform (name : string)
    (self : ShaderProgram) : JSM ShaderProgram :=
  c <- getGL ;;
  let location :=
    match lookupN (program self) (programs c) with
    | Some po =>
        if usable po && activeUniform po name
        then Some (program self, name) else None
    | None => None
    end in
  ret {| vs := vs self; fs := fs self; program := program self;
         attributes := attributes self;
         uniforms := storeS name location (uniforms self) |}.

(** [this.uniforms[name]]: [undefined] for a name never registered, which
    the context takes as [null]. *)
Definition uniformLocation (self : ShaderProgram) (name : string)
    : option Location :=
  match lookupS name (uniforms self) with
  | Some location => location
  | None => None
  end.

Definition ShaderProgram_setUniformMatrix (self : ShaderProgram)
    (name : string) (mat : Mat4) : JSM unit :=
  glCall (gl_uniform (uniformLocation self name) (UMatrix mat)).

Definition ShaderProgram_setUniformInt (self : ShaderProgram)
    (name : string) (val : Z) : JSM unit :=
  glCall (gl_uniform (uniformLocation self name) (UInt val)).

Definition ShaderProgram_setUniformFloat (self : ShaderProgram)
    (name : string) (val : Q) : JSM unit :=
  glCall (gl_uniform (uniformLocation self name) (UFloat val)).

(** **** [VolumeCubeDomain] and [FullscreenQuad] *)

(** [new VolumeCubeDomain(gl, sliceWidth, sliceHeight, slices, slicesPerRow)].
    The divisions are those of JavaScript numbers; a zero [sliceWidth] gives
    [Infinity] or [NaN] there and 0 here. *)
Definition new_VolumeCubeDomain (sliceWidth sliceHeight slices slicesPerRow : Z)
    : JSM VolumeCubeDomain :=
  let cubeWidth := 1 in
  let cubeHeight := inject_Z sliceHeight / inject_Z sliceWidth in
  let cubeDepth := inject_Z slices / inject_Z sliceWidth in
  cubeVertexBuffer <- createObject ;;
  cubeIndexBuffer <- createObject ;;
  ret {| sliceWidth := sliceWidth; sliceHeight := sliceHeight;
         slices := slices; slicesPerRow := slicesPerRow;
         cubeDimensions := {| w := cubeWidth; h := cubeHeight; d := cubeDepth |};
         cubeVertexBuffer :=
           {| buffer := cubeVertexBuffer; itemSize := 3; numItems := 24 |};
         cubeIndexBuffer :=
           {| buffer := cubeIndexBuffer; itemSize := 1; numItems := 36 |} |}.

Definition VolumeCubeDomain_render (self : VolumeCubeDomain)
    (vertexPositionAttribute : option Z) : JSM unit :=
  glCall (gl_draw TRIANGLES (numItems (cubeIndexBuffer self))).

(** [new FullscreenQuad(gl)]. *)
Definition new_FullscreenQuad : JSM FullscreenQuad :=
  vertexBuffer <- createObject ;;
  ret {| vertexBuffer :=
           {| buffer := vertexBuffer; itemSize := 3; numItems := 4 |} |}.

Definition FullscreenQuad_render (self : FullscreenQuad)
    (vertexPositionAttribute : option Z) : JSM unit :=
  glCall (gl_draw TRIANGLE_FAN 4).

(** **** [VolumeRenderer] *)

Definition _initShaders : JSM unit :=
  r <- getThis ;;
  match gl r with
  | None => ret tt
  | Some _ =>
      p <- new_ShaderProgram "entry-exitpoints-vs" "entry-exitpoints-fs" ;;
      p <- ShaderProgram_registerAttribute "aVertexPosition" p ;;
      p <- ShaderProgram_registerUniform "uModelViewMatrix" p ;;
      p <- ShaderProgram_registerUniform "uProjectionMatrix" p ;;
      updThis (fun r =>
        set_shaders {| entryExitPoints := Some p;
                       volume := volume (shaders r) |} r) ;;
      p <- new_ShaderProgram "volume-vs" "volume-fs" ;;
      p <- ShaderProgram_registerAttribute "aVertexPosition" p ;;
      p <- ShaderProgram_registerUniform "uEntryPointsSampler" p ;;
      p <- ShaderProgram_registerUniform "uExitPointsSampler" p ;;
      p <- ShaderProgram_registerUniform "uVolumeTexture" p ;;
      p <- ShaderProgram_registerUniform "uNumSlices" p ;;
      p <- ShaderProgram_registerUniform "uSlicesPerRow" p ;;
      p <- ShaderProgram_registerUniform "uSliceWidth" p ;;
      p <- ShaderProgram_registerUniform "uSliceHeight" p ;;
      updThis (fun r =>
        set_shaders {| entryExitPoints := entryExitPoints (shaders r);
                       volume := Some p |} r)
  end.

Definition _initFramebuffers : JSM unit :=
  c <- getGL ;;
  f <- new_FrameBuffer (viewportWidth c) (viewportHeight c) true (Some FLOAT) ;;
  updThis (fun r =>
    set_framebuffers {| exitpoints := Some f;
                        entrypoints := entrypoints (framebuffers r) |} r) ;;
  f <- new_FrameBuffer (viewportWidth c) (viewportHeight c) true (Some FLOAT) ;;
  updThis (fun r =>
    set_framebuffers {| exitpoints := exitpoints (framebuffers r);
                        entrypoints := Some f |} r).

(** [this.initGL = function(canvas)]. *)
Definition initGL (canvas : Canvas) : JSM bool :=
  tryCatch
    (updThis (set_canvas (Some canvas)) ;;
     updThis (set_gl (if webglAvailable then Some TheContext else None)) ;;
     r <- getThis ;;
     match gl r with
     | None => throw "Couldn't get a WebGL context"
     | Some _ =>
         glCall (set_viewportWidth (canvas_width canvas)) ;;
         glCall (set_viewportHeight (canvas_height canvas)) ;;
         updThis (set_anim (Some {| angle := 0 |})) ;;
         (if floatTextures then ret tt
          else throw "Your device does not support float textres!") ;;
         _initShaders ;;
         _initFramebuffers ;;
         q <- new_FullscreenQuad ;;
         updThis (set_viewportQuad (Some q))
     end)
    (fun e =>
       updThis (set_canvas None) ;;
       updThis (set_gl None) ;;
       console_error e) ;;
  r <- getThis ;;
  ret match gl r with Some _ => true | None => false end.

(** [this.initVolumeGeometry = function(volumeTexture, sliceWidth,
    sliceHeight, slices, slicesPerRow)]. *)
Definition initVolumeGeometry (volumeTexture : string)
    (sliceWidth sliceHeight slices slicesPerRow : Z) : JSM unit :=
  r <- getThis ;;
  match gl r with
  | None => ret tt
  | Some _ =>
      dc <- new_VolumeCubeDomain sliceWidth sliceHeight slices slicesPerRow ;;
      updThis (set_domainCube (Some dc)) ;;
      t <- createTexture ;;
      setGlobalTexture (Some t) ;;
      glCall (fun c =>
        set_textureObjects
          (storeN t
             {| image :=
                  Some {| src := Some volumeTexture;
                          onload_slices := slices;
                          onload_slicesPerRow := slicesPerRow;
                          onload_sliceWidth := sliceWidth;
                          onload_sliceHeight := sliceHeight;
                          width := 0; height := 0 |};
                isLoaded := false |} (textureObjects c)) c) ;;
      texture <- getGlobalTexture ;;
      updThis (set_textures {| volume_texture := texture |})
  end.

(** The body of [texture.image.onload], run with the parameters the closure
    captured.  [texture] is the global variable, [shaders] the object
    [this.shaders] of the renderer. *)
Definition onload (img : Image) : JSM unit :=
  t <- getGlobalTexture ;;
  glCall (gl_bindTexture t) ;;
  t <- deref t ;;
  c <- getGL ;;
  timg <- deref match lookupN t (textureObjects c) with
                | Some o => image o
                | None => None
                end ;;
  glCall (gl_bindTexture None) ;;
  glCall (fun c =>
    set_textureObjects
      (storeN t {| image := Some timg; isLoaded := true |}
         (textureObjects c)) c) ;;
  r <- getThis ;;
  p <- deref (volume (shaders r)) ;;
  ShaderProgram_setUniformInt p "uNumSlices" (onload_slices img) ;;
  ShaderProgram_setUniformInt p "uSlicesPerRow" (onload_slicesPerRow img) ;;
  ShaderProgram_setUniformFloat p "uSliceWidth"
    (inject_Z (onload_sliceWidth img) / inject_Z (width timg)) ;;
  ShaderProgram_setUniformFloat p "uSliceHeight"
    (inject_Z (onload_sliceHeight img) / inject_Z (height timg)).

(** The browser finishes loading the image of texture [t], of
    [imageWidth] x [imageHeight] pixels, and calls its [onload]. *)
Definition imageLoaded (t : Handle) (imageWidth imageHeight : Z) : JSM unit :=
  c <- getGL ;;
  match lookupN t (textureObjects c) with
  | Some {| image := Some img; isLoaded := l |} =>
      let img' := {| src := src img;
                     onload_slices := onload_slices img;
                     onload_slicesPerRow := onload_slicesPerRow img;
                     onload_sliceWidth := onload_sliceWidth img;
                     onload_sliceHeight := onload_sliceHeight img;
                     width := imageWidth; height := imageHeight |} in
      glCall (fun c =>
        set_textureObjects
          (storeN t {| image := Some img'; isLoaded := l |}
             (textureObjects c)) c) ;;
      onload img'
  | _ => ret tt
  end.

Definition _setMatrices (program : ShaderProgram) : JSM unit :=
  r <- getThis ;;
  a <- deref (anim r) ;;
  dc <- deref (domainCube r) ;;
  let cd := cubeDimensions dc in
  let modelView := ModelView (angle a) (w cd) (h cd) (d cd) in
  c <- getGL ;;
  let projection := Perspective (viewportWidth c / viewportHeight c) in
  ShaderProgram_setUniformMatrix program "uProjectionMatrix" projection ;;
  ShaderProgram_setUniformMatrix program "uModelViewMatrix" modelView.

(** [this.update = function(elapsed)]. *)
Definition update (elapsed : Q) : JSM unit :=
  r <- getThis ;;
  a <- deref (anim r) ;;
  updThis (set_anim (Some {| angle := angle a + elapsed / 1000 |})).

(** [this.draw = function()]. *)
Definition draw : JSM unit :=
  r <- getThis ;;
  match gl r with
  | None => ret tt
  | Some _ =>
      program <- deref (entryExitPoints (shaders r)) ;;
      ShaderProgram_use program ;;
      _setMatrices program ;;
      glCall (set_clearColorValue (0, 0, 0, 0)) ;;
      glCall (set_depthTest true) ;;

      exitpoints_ <- deref (exitpoints (framebuffers r)) ;;
      FrameBuffer_attach exitpoints_ ;;
      glCall (set_depthFuncValue GREATER) ;;
      glCall (set_clearDepthValue (-1)) ;;
      glCall gl_clear ;;
      dc <- deref (domainCube r) ;;
      VolumeCubeDomain_render dc
        (lookupS "aVertexPosition" (attributes program)) ;;
      FrameBuffer_detach exitpoints_ ;;

      glCall (set_depthFuncValue LESS) ;;
      glCall (set_clearDepthValue 1) ;;
      entrypoints_ <- deref (entrypoints (framebuffers r)) ;;
      FrameBuffer_attach entrypoints_ ;;
      glCall gl_clear ;;
      VolumeCubeDomain_render dc
        (lookupS "aVertexPosition" (attributes program)) ;;
      FrameBuffer_detach entrypoints_ ;;

      program <- deref (volume (shaders r)) ;;
      ShaderProgram_use program ;;
      glCall (set_depthFuncValue GREATER) ;;
      glCall (set_clearDepthValue (-1)) ;;
      glCall gl_clear ;;

      glCall (set_activeTextureUnit 0) ;;
      FrameBuffer_bindAsTexture entrypoints_ ;;
      glCall (set_activeTextureUnit 1) ;;
      FrameBuffer_bindAsTexture exitpoints_ ;;

      ShaderProgram_setUniformInt program "uEntryPointsSampler" 0 ;;
      ShaderProgram_setUniformInt program "uExitPointsSampler" 1 ;;
      t <- deref (volume_texture (textures r)) ;;
      c <- getGL ;;
      (if match lookupN t (textureObjects c) with
          | Some o => isLoaded o
          | None => false
          end
       then
         glCall (set_activeTextureUnit 2) ;;
         glCall (gl_bindTexture (Some t)) ;;
         ShaderProgram_setUniformInt program "uVolumeTexture" 2
       else ret tt) ;;
      q <- deref (viewportQuad r) ;;
      FullscreenQuad_render q None
  end.

End Page.

(** *** An initialised renderer *)

(** The objects a renderer holds once [initGL] and [initVolumeGeometry] have
    run. *)
Record Parts := {
  the_canvas : Canvas;
  the_anim : Anim;
  the_exitpoints : FrameBuffer;
  the_entrypoints : FrameBuffer;
  the_volume_texture : Handle;
  the_entryExitPoints : ShaderProgram;
  the_volume : ShaderProgram;
  the_domainCube : VolumeCubeDomain;
  the_viewportQuad : FullscreenQuad
}.

Definition rendererOf (x : Parts) : VolumeRenderer :=
  {| gl := Some TheContext;
     canvas := Some (the_canvas x);
     anim := Some (the_anim x);
     framebuffers := {| exitpoints := Some (the_exitpoints x);
                        entrypoints := Some (the_entrypoints x) |};
     textures := {| volume_texture := Some (the_volume_texture x) |};
     shaders := {| entryExitPoints := Some (the_entryExitPoints x);
                   volume := Some (the_volume x) |};
     domainCube := Some (the_domainCube x);
     viewportQuad := Some (the_viewportQuad x) |}.

(** The program of a [ShaderProgram] is linked, and its uniform locations
    are those [_initShaders] registers for it. *)
Definition registered (p : Handle) (names : list string)
    : list (string * option Location) :=
  map (fun name => (name, Some (p, name))) names.

Definition linkedWith (c : GLContext) (p : ShaderProgram)
    (names : list string) : Prop :=
  (exists po, lookupN (program p) (programs c) = Some po /\ usable po = true)
  /\ uniforms p = registered (program p) names.

(** Shaders compiled and linked, render targets allocated, domain geometry
    built. *)
Definition Initialised (wd : World) (x : Parts) : Prop :=
  this wd = rendererOf x /\
  linkedWith (context wd) (the_entryExitPoints x)
    ["uModelViewMatrix"; "uProjectionMatrix"] /\
  linkedWith (context wd) (the_volume x)
    ["uEntryPointsSampler"; "uExitPointsSampler"; "uVolumeTexture";
     "uNumSlices"; "uSlicesPerRow"; "uSliceWidth"; "uSliceHeight"] /\
  program (the_entryExitPoints x) <> program (the_volume x).

(** The uniform values of the program of a [ShaderProgram]. *)
Definition uniformsOf (c : GLContext) (p : ShaderProgram)
    : list (string * UniformValue) :=
  match lookupN (program p) (programs c) with
  | Some po => po_uniforms po
  | None => []
  end.

(** The script of the page up to its first frame, in a browser where
    everything works: [main()] runs [initGL], [initVolumeGeometry] and the
    first [tick()]. *)
Definition pageCanvas : Canvas := {| canvas_width := 500; canvas_height := 500 |}.

Definition runPage : JSM unit :=
  ok <- initGL true true (fun _ => true) (fun _ _ => true) true pageCanvas ;;
  if ok then
    initVolumeGeometry "tex.png" 128 128 114 11 ;;
    draw
  else alert "Sorry, could not initialize WebGL".

Definition pageAfterInit : World :=
  fst ((initGL true true (fun _ => true) (fun _ _ => true) true pageCanvas ;;
        initVolumeGeometry "tex.png" 128 128 114 11) startWorld).

Definition pageAfterFirstFrame : World := fst (runPage startWorld).

(** The objects the renderer of the page holds. *)
Definition pageParts : Parts :=
  {| the_canvas := pageCanvas;
     the_anim := {| angle := 0 |};
     the_exitpoints :=
       {| fb := 2%nat; fb_width := 500; fb_height := 500; dataType := FLOAT;
          fbTexture := 3%nat; depthBuffer := Some 4%nat |};
     the_entrypoints :=
       {| fb := 5%nat; fb_width := 500; fb_height := 500; dataType := FLOAT;
          fbTexture := 6%nat; depthBuffer := Some 7%nat |};
     the_volume_texture := 11%nat;
     the_entryExitPoints :=
       {| vs := Some (VERTEX_SHADER, "entry-exitpoints-vs");
          fs := Some (FRAGMENT_SHADER, "entry-exitpoints-fs");
          program := 0%nat;
          attributes := [("aVertexPosition", 0%Z)];
          uniforms := registered 0%nat ["uModelViewMatrix"; "uProjectionMatrix"] |};
     the_volume :=
       {| vs := Some (VERTEX_SHADER, "volume-vs");
          fs := Some (FRAGMENT_SHADER, "volume-fs");
          program := 1%nat;
          attributes := [("aVertexPosition", 0%Z)];
          uniforms :=
            registered 1%nat
              ["uEntryPointsSampler"; "uExitPointsSampler"; "uVolumeTexture";
               "uNumSlices"; "uSlicesPerRow"; "uSliceWidth"; "uSliceHeight"] |};
     the_domainCube :=
       {| sliceWidth := 128; sliceHeight := 128; slices := 114;
          slicesPerRow := 11;
          cubeDimensions :=
            {| w := 1; h := inject_Z 128 / inject_Z 128;
               d := inject_Z 114 / inject_Z 128 |};
          cubeVertexBuffer := {| buffer := 9%nat; itemSize := 3; numItems := 24 |};
          cubeIndexBuffer := {| buffer := 10%nat; itemSize := 1; numItems := 36 |} |};
     the_viewportQuad :=
       {| vertexBuffer := {| buffer := 8%nat; itemSize := 3; numItems := 4 |} |} |}.

(** The claim that degenerate atlas parameters are refused: for
    [slices <= 1] or [slicesPerRow <= 0], [initVolumeGeometry] throws or
    leaves the renderer without the new domain. *)
Definition guardsDegenerate (sliceWidth sliceHeight slices slicesPerRow : Z)
    (wd : World) : Prop :=
  (slices <= 1 \/ slicesPerRow <= 0)%Z ->
  match initVolumeGeometry "tex.png" sliceWidth sliceHeight slices
          slicesPerRow wd with
  | (wd', Normal _) => domainCube (this wd') = domainCube (this wd)
  | (_, Throw _) => True
  end.

(** Browsers in which one shader fails: the volume program does not
    link, or the volume fragment shader does not compile. *)
Definition volumeLinkFails (vertShaderId fragShaderId : string) : bool :=
  negb (String.eqb vertShaderId "volume-vs").

Definition volumeCompileFails (shaderId : string) : bool :=
  negb (String.eqb shaderId "volume-fs").

(** The page after [initGL] alone. *)
Definition pageAfterInitGL : World :=
  fst (initGL true true (fun _ => true) (fun _ _ => true) true pageCanvas
         startWorld).

End JS.

(** ** A two-slice atlas: slice 0 is 0.2 everywhere, slice 1 is 0.8 *)

Module MidpointScene.
Import GLSL.
Local Open Scope R_scope.

(** Two tiles side by side, each half of the atlas wide. *)
Definition atlas : sampler2D :=
  fun uv => if Rlt_dec (x2 uv) 0.5 then Vec4 0.2 0.2 0.2 1
            else Vec4 0.8 0.8 0.8 1.

Definition sample (pos : vec3) : R := sampleVolume atlas 2 2 0.5 1 pos.

End MidpointScene.

(** ** A scene that drives accumulated alpha to exactly 0.98 *)

Module ThresholdScene.
Import GLSL.
Local Open Scope R_scope.

(** A volume texture whose every texel is [c]. *)
Definition constantVolume (c : R) : sampler2D := fun _ => Vec4 c c c 1.

(** The absorption that brings alpha to 0.98 in 20 steps, and the texel
    value that has it. *)
Definition absorbtion : R := ln 50 / 8.
Definition texel : R := Rpower absorbtion (/ 1.1).

(** A ray through the middle of the cube along z, a ten-slice atlas in one
    row. *)
Definition entryPoint : vec3 := Vec3 0.5 0.5 0.
Definition exitPoint : vec3 := Vec3 0.5 0.5 1.
Definition state : nat -> LoopState :=
  integrateTrace (constantVolume texel) 10 10 0.1 1 entryPoint exitPoint.
Definition result : vec4 :=
  integrateVolume (constantVolume texel) 10 10 0.1 1 entryPoint exitPoint.

(** What one step lets through: [exp(-step * absorbtion * 40)]. *)
Definition transmittance : R := exp (- (ln 50 / 20)).

End ThresholdScene.

(** ** The other shaders of the page *)

Module Shaders.
Import GLSL.
Local Open Scope R_scope.

(** A [mat4], by its columns; a [vec4] holds x, y, z, w in [r4], [g4],
    [b4], [a4]. *)
Record mat4 := Mat4 { col0 : vec4; col1 : vec4; col2 : vec4; col3 : vec4 }.

Definition add4 (u v : vec4) : vec4 :=
  Vec4 (r4 u + r4 v) (g4 u + g4 v) (b4 u + b4 v) (a4 u + a4 v).
Definition scale4 (f : R) (v : vec4) : vec4 :=
  Vec4 (f * r4 v) (f * g4 v) (f * b4 v) (f * a4 v).

(** [m * v] and [a * b]. *)
Definition mulMV (m : mat4) (v : vec4) : vec4 :=
  add4 (add4 (scale4 (r4 v) (col0 m)) (scale4 (g4 v) (col1 m)))
       (add4 (scale4 (b4 v) (col2 m)) (scale4 (a4 v) (col3 m))).
Definition mulMM (a b : mat4) : mat4 :=
  Mat4 (mulMV a (col0 b)) (mulMV a (col1 b)) (mulMV a (col2 b))
       (mulMV a (col3 b)).

(** The constructor [vec4(v, w)]. *)
Definition vec4_of (v : vec3) (w : R) : vec4 := Vec4 (x3 v) (y3 v) (z3 v) w.

(** [main] of [entry-exitpoints-vs]: [gl_Position] and the varying. *)
Record EntryExitVertex := { gl_Position : vec4; vObjectspacePos : vec3 }.

Definition entryExitVertexMain (uModelViewMatrix uProjectionMatrix : mat4)
    (aVertexPosition : vec3) : EntryExitVertex :=
  let MVP := mulMM uProjectionMatrix uModelViewMatrix in
  {| gl_Position := mulMV MVP (vec4_of aVertexPosition 1);
     vObjectspacePos := add3 aVertexPosition (Vec3 0.5 0.5 0.5) |}.

(** [main] of [entry-exitpoints-fs]: the value of [gl_FragColor]. *)
Definition entryExitFragmentMain (vObjectspacePos : vec3) : vec4 :=
  vec4_of vObjectspacePos 1.



(** A point of the unit cube [0,1]^3. *)
Definition inUnitCube (v : vec3) : Prop :=
  0 <= x3 v <= 1 /\ 0 <= y3 v <= 1 /\ 0 <= z3 v <= 1.

(** A color whose r, g, b are weighted by its alpha. *)
Definition premultiplied (c : vec4) : Prop :=
  0 <= r4 c <= a4 c /\ 0 <= g4 c <= a4 c /\ 0 <= b4 c <= a4 c /\ a4 c <= 1.

End Shaders.

(** ** The script of the page *)

Module Page.
Import JS.
Local Open Scope string_scope.
Local Open Scope Q_scope.

(** Whether the texture [t] carries [isLoaded = true]. *)
Definition volumeLoaded (c : GLContext) (t : Handle) : bool :=
  match lookupN t (textureObjects c) with
  | Some o => isLoaded o
  | None => false
  end.

(** The page once the atlas image, of 1408 x 1408 pixels, has loaded after
    the first frame. *)
Definition pageAfterLoad : World :=
  fst (imageLoaded 11%nat 1408 1408 pageAfterFirstFrame).


(** What [initGL] leaves alone apart from context and canvas: the domain
    geometry, the global [texture], and what has been drawn. *)
Definition Untouched (wd wd' : World) : Prop :=
  domainCube (this wd') = domainCube (this wd) /\
  texture wd' = texture wd /\
  events (context wd') = events (context wd).

(** The renderer still holds the context and canvas it held, and the rest
    is [Untouched]. *)
Definition Keeps (wd wd' : World) : Prop :=
  gl (this wd') = gl (this wd) /\ canvas (this wd') = canvas (this wd) /\
  Untouched wd wd'.

(** A statement that completes normally with a value in [P], and a statement
    that throws, either way keeping the above. *)
Definition Safe {A} (P : A -> Prop) (m : JSM A) : Prop :=
  forall wd, exists wd' a, m wd = (wd', Normal a) /\ P a /\ Keeps wd wd'.

Definition Throws {A} (m : JSM A) : Prop :=
  forall wd, exists wd' e, m wd = (wd', Throw e) /\ Keeps wd wd'.

Section Browser.

Variable webglAvailable : bool.
Variable floatTextures : bool.
Variable compiles : string -> bool.
Variable links : string -> string -> bool.
Variable strictBindings : bool.

(** Whether both [ShaderProgram] constructors get past [attachShader]:
    the binding does not throw on [null], or all four shaders compile. *)
Definition shadersAttach : bool :=
  negb strictBindings
  || (compiles "entry-exitpoints-vs" && compiles "entry-exitpoints-fs"
      && (compiles "volume-vs" && compiles "volume-fs")).

(** [main()] of the page, up to the first frame: the first [tick()] finds
    [lastTime == 0] and calls [draw] without [update]. *)
Definition main : JSM unit :=
  updThis (fun _ => newVolumeRenderer) ;;
  ok <- initGL webglAvailable floatTextures compiles links strictBindings
          pageCanvas ;;
  if negb ok then alert "Sorry, could not initialize WebGL"
  else
    initVolumeGeometry "tex.png" 128 128 114 11 ;;
    draw.

End Browser.

End Page.

(** ** Floor and ceiling on the reals *)

Module RFloor.
Import GLSL.
Local Open Scope R_scope.

Lemma Int_part_bounds (x : R) : IZR (Int_part x) <= x < IZR (Int_part x) + 1.
Proof.
  destruct (base_Int_part x) as [Hle Hgt]. lra.
Qed.

Lemma Int_part_unique (x : R) (k : Z) :
  IZR k <= x < IZR k + 1 -> Int_part x = k.
Proof.
  intros [Hlo Hhi]. symmetry. apply Int_part_spec. lra.
Qed.

Lemma Int_part_IZR (k : Z) : Int_part (IZR k) = k.
Proof. apply Int_part_unique. lra. Qed.

Lemma floor_bounds (x : R) : floor x <= x < floor x + 1.
Proof. apply Int_part_bounds. Qed.

Lemma floor_unique (x : R) (k : Z) : IZR k <= x < IZR k + 1 -> floor x = IZR k.
Proof. intros H. unfold floor. now rewrite (Int_part_unique x k H). Qed.

Lemma floor_IZR (k : Z) : floor (IZR k) = IZR k.
Proof. unfold floor. now rewrite Int_part_IZR. Qed.

Lemma ceil_IZR (k : Z) : ceil (IZR k) = IZR k.
Proof.
  unfold ceil. rewrite <- opp_IZR, floor_IZR, opp_IZR. lra.
Qed.

Lemma ceil_bounds (x : R) : ceil x - 1 < x <= ceil x.
Proof.
  unfold ceil. destruct (floor_bounds (- x)). lra.
Qed.

Lemma floor_le_ceil (x : R) : floor x <= ceil x.
Proof.
  destruct (floor_bounds x), (ceil_bounds x). lra.
Qed.

Lemma floor_is_int (x : R) : exists k : Z, floor x = IZR k.
Proof. now exists (Int_part x). Qed.

Lemma ceil_is_int (x : R) : exists k : Z, ceil x = IZR k.
Proof.
  exists (- Int_part (- x))%Z. unfold ceil, floor. now rewrite opp_IZR.
Qed.

(** Two integers strictly less than one apart are equal. *)
Lemma IZR_close (j k : Z) : IZR j < IZR k + 1 -> IZR k < IZR j + 1 -> j = k.
Proof.
  intros H1 H2.
  assert (j < k + 1)%Z by (apply lt_IZR; rewrite plus_IZR; exact H1).
  assert (k < j + 1)%Z by (apply lt_IZR; rewrite plus_IZR; exact H2).
  lia.
Qed.

(** [floor] and [ceil] agree exactly on the integers. *)
Lemma floor_eq_ceil_iff (x : R) :
  floor x = ceil x <-> exists k : Z, x = IZR k.
Proof.
  split.
  - intros E. exists (Int_part x).
    destruct (floor_bounds x), (ceil_bounds x). unfold floor in *. lra.
  - intros [k ->]. now rewrite floor_IZR, ceil_IZR.
Qed.

(** Off the integers the ceiling is the floor plus one. *)
Lemma ceil_floor_succ (x : R) :
  floor x <> ceil x -> ceil x = floor x + 1.
Proof.
  intros Hne.
  destruct (floor_is_int x) as [j Hj], (ceil_is_int x) as [k Hk].
  destruct (floor_bounds x) as [F1 F2], (ceil_bounds x) as [C1 C2].
  rewrite Hj, Hk in *.
  assert (j <= k)%Z by (apply le_IZR; lra).
  assert (k < j + 2)%Z
    by (apply lt_IZR; rewrite plus_IZR; lra).
  assert (j <> k) by (intros ->; now apply Hne).
  replace k with (j + 1)%Z by lia. now rewrite plus_IZR.
Qed.

Lemma floor_nonneg (x : R) : 0 <= x -> 0 <= floor x.
Proof.
  intros Hx. destruct (floor_is_int x) as [k Hk].
  destruct (floor_bounds x) as [_ F2]. rewrite Hk in *.
  apply IZR_le. assert (0 < k + 1)%Z by (apply lt_IZR; rewrite plus_IZR; lra).
  lia.
Qed.

Lemma ceil_le_int (x : R) (k : Z) : x <= IZR k -> ceil x <= IZR k.
Proof.
  intros Hx. destruct (ceil_is_int x) as [j Hj].
  destruct (ceil_bounds x) as [C1 _]. rewrite Hj in *.
  apply IZR_le. assert (j - 1 < k)%Z by (apply lt_IZR; rewrite minus_IZR; lra).
  lia.
Qed.

End RFloor.


(** ** Properties of the fragment shader *)

Module ShaderProps.
Import GLSL RFloor.
Local Open Scope R_scope.

(** *** Atlas addressing *)

Lemma int_IZR (k : Z) : int (IZR k) = k.
Proof.
  unfold int. destruct (Rle_dec 0 (IZR k)) as [H | H].
  - apply Int_part_IZR.
  - rewrite <- opp_IZR, Int_part_IZR. lia.
Qed.

Lemma floor_div_IZR (k m : Z) :
  (0 < m)%Z -> floor (IZR k / IZR m) = IZR (k / m).
Proof.
  intros Hm. apply floor_unique.
  assert (Hm' : 0 < IZR m) by now apply IZR_lt.
  pose proof (Z.mul_div_le k m Hm) as Hlo.
  pose proof (Z.mul_succ_div_gt k m Hm) as Hhi.
  apply IZR_le in Hlo. apply IZR_lt in Hhi.
  rewrite mult_IZR in Hlo. unfold Z.succ in Hhi.
  rewrite mult_IZR, plus_IZR in Hhi.
  split.
  - apply Rmult_le_reg_l with (IZR m); [exact Hm'|].
    replace (IZR m * (IZR k / IZR m)) with (IZR k) by (field; lra). lra.
  - apply Rmult_lt_reg_l with (IZR m); [exact Hm'|].
    replace (IZR m * (IZR k / IZR m)) with (IZR k) by (field; lra). lra.
Qed.

(** On integer-valued floats GLSL [mod] is the integer remainder. *)
Lemma fmod_IZR (k m : Z) :
  (0 < m)%Z -> fmod (IZR k) (IZR m) = IZR (k mod m).
Proof.
  intros Hm. unfold fmod. rewrite floor_div_IZR by exact Hm.
  rewrite Z.mod_eq by lia. now rewrite minus_IZR, mult_IZR.
Qed.

(** The tile origin of the code is (index mod slicesPerRow,
    floor (index / slicesPerRow)). *)
Lemma tileOrigin_IZR (spr k : Z) :
  (0 < spr)%Z -> (0 <= k)%Z ->
  tileOrigin spr (IZR k) = Vec2 (IZR (k mod spr)) (IZR (k / spr)).
Proof.
  intros Hspr Hk. unfold tileOrigin, float.
  rewrite fmod_IZR by exact Hspr. rewrite int_IZR.
  now rewrite Z.quot_div_nonneg by lia.
Qed.

Lemma ceil_div_gt (n m k : Z) :
  (0 < m)%Z -> (0 <= k < n)%Z -> (k / m < (n + m - 1) / m)%Z.
Proof.
  intros Hm Hk.
  apply Z.lt_le_trans with ((k + m) / m)%Z.
  - replace (k + m)%Z with (k + 1 * m)%Z by lia.
    rewrite Z.div_add by lia. lia.
  - apply Z.div_le_mono; lia.
Qed.

Lemma tileOrigin_in_grid (n spr k : Z) :
  (0 < spr)%Z -> (0 <= k < n)%Z -> inAtlasGrid n spr (tileOrigin spr (IZR k)).
Proof.
  intros Hspr Hk. rewrite tileOrigin_IZR by lia.
  unfold inAtlasGrid, atlasRows; cbn [x2 y2].
  pose proof (Z.mod_pos_bound k spr Hspr) as [M1 M2].
  pose proof (ceil_div_gt n spr k Hspr Hk) as D2.
  assert (D1 : (0 <= k / spr)%Z) by (apply Z.div_pos; lia).
  repeat split.
  - now apply IZR_le.
  - now apply IZR_lt.
  - now apply IZR_le.
  - now apply IZR_lt.
Qed.

(** For [pos.z] in [0,1] both slice indices are integers between 0 and
    [uNumSlices - 1]. *)
Lemma slice_indices (n : Z) (z : R) :
  (2 <= n)%Z -> 0 <= z <= 1 ->
  exists kb ka : Z,
    floor (z * float (n - 1)) = IZR kb /\ ceil (z * float (n - 1)) = IZR ka /\
    (0 <= kb <= ka)%Z /\ (ka <= n - 1)%Z.
Proof.
  intros Hn Hz. unfold float.
  set (s := z * IZR (n - 1)).
  assert (Hn1 : 1 <= IZR (n - 1)) by (apply IZR_le; lia).
  assert (Hs : 0 <= s <= IZR (n - 1)) by (unfold s; split; nra).
  destruct (floor_is_int s) as [kb Hb], (ceil_is_int s) as [ka Ha].
  exists kb, ka. repeat split; try assumption.
  - apply le_IZR. rewrite <- Hb. apply floor_nonneg, Hs.
  - apply le_IZR. rewrite <- Hb, <- Ha. apply floor_le_ceil.
  - apply le_IZR. rewrite <- Ha. apply ceil_le_int, Hs.
Qed.

(** C5: for [uNumSlices >= 2], [uSlicesPerRow >= 1] and [pos.z] in [0,1] the
    two slice indices [floor(s)] and [ceil(s)], [s = pos.z * (uNumSlices-1)],
    are at most [uNumSlices - 1]; the tile origins the code computes for them,
    and for index [uNumSlices - 1], lie in the atlas grid
    [0, slicesPerRow) x [0, ceil(sliceCount / slicesPerRow)); and the tile
    origin of an index is (index mod slicesPerRow, floor(index / slicesPerRow)). *)
Theorem atlas_tiles_in_grid (uNumSlices uSlicesPerRow : Z) (pos : vec3) :
  (2 <= uNumSlices)%Z -> (1 <= uSlicesPerRow)%Z -> 0 <= z3 pos <= 1 ->
  let s := z3 pos * float (uNumSlices - 1) in
  floor s <= float (uNumSlices - 1) /\
  ceil s <= float (uNumSlices - 1) /\
  inAtlasGrid uNumSlices uSlicesPerRow (tileOrigin uSlicesPerRow (floor s)) /\
  inAtlasGrid uNumSlices uSlicesPerRow (tileOrigin uSlicesPerRow (ceil s)) /\
  inAtlasGrid uNumSlices uSlicesPerRow
    (tileOrigin uSlicesPerRow (float (uNumSlices - 1))) /\
  (forall index : Z, (0 <= index)%Z ->
     tileOrigin uSlicesPerRow (IZR index) =
     Vec2 (IZR (index mod uSlicesPerRow)) (IZR (index / uSlicesPerRow))).
Proof.
  intros Hn Hspr Hz s.
  destruct (slice_indices uNumSlices (z3 pos) Hn Hz)
    as (kb & ka & Hb & Ha & Hk1 & Hk2).
  fold s in Hb, Ha. rewrite Hb, Ha. unfold float.
  refine (conj _ (conj _ (conj _ (conj _ (conj _ _))))).
  - apply IZR_le; lia.
  - apply IZR_le; lia.
  - apply tileOrigin_in_grid; lia.
  - apply tileOrigin_in_grid; lia.
  - apply tileOrigin_in_grid; lia.
  - intros index Hi. apply tileOrigin_IZR; lia.
Qed.

(** *** Interpolation across slices *)

(** [sampleVolume] in terms of the two texels it fetches. *)
Lemma sampleVolume_unfold (tex : sampler2D) (n spr : Z) (w h : R) (pos : vec3) :
  let s := z3 pos * float (n - 1) in
  sampleVolume tex n spr w h pos =
  if Req_dec_T (floor s) (ceil s) then sliceSample tex spr w h (floor s) pos
  else sliceSample tex spr w h (ceil s) pos * (1 - (ceil s - s))
       + sliceSample tex spr w h (floor s) pos * (ceil s - s).
Proof. reflexivity. Qed.

(** C1: with [s = pos.z * (uNumSlices - 1)], [sampleVolume] returns the
    below-slice sample alone when [s] is an integer, and otherwise
    [valueBelow * a + valueAbove * (1 - a)] with [a = sliceAbove - s]; when the
    fractional part of [s] is one half, the two slices are adjacent and the
    result is their arithmetic mean. *)
Theorem sampleVolume_interpolation
    (uVolumeTexture : sampler2D) (uNumSlices uSlicesPerRow : Z)
    (uSliceWidth uSliceHeight : R) (pos : vec3) :
  0 <= z3 pos <= 1 -> (2 <= uNumSlices)%Z ->
  let s := z3 pos * float (uNumSlices - 1) in
  let sample :=
    sampleVolume uVolumeTexture uNumSlices uSlicesPerRow
      uSliceWidth uSliceHeight pos in
  let valueBelow :=
    sliceSample uVolumeTexture uSlicesPerRow uSliceWidth uSliceHeight
      (floor s) pos in
  let valueAbove :=
    sliceSample uVolumeTexture uSlicesPerRow uSliceWidth uSliceHeight
      (ceil s) pos in
  let a := ceil s - s in
  ((exists k : Z, s = IZR k) -> sample = valueBelow) /\
  (~ (exists k : Z, s = IZR k) ->
     sample = valueBelow * a + valueAbove * (1 - a)) /\
  (s - floor s = 1 / 2 ->
     ceil s = floor s + 1 /\ sample = (valueBelow + valueAbove) / 2).
Proof.
  intros Hz Hn s sample valueBelow valueAbove a.
  unfold sample. rewrite sampleVolume_unfold. fold s.
  fold valueBelow valueAbove a.
  clearbody valueBelow valueAbove. clear sample. clearbody s.
  destruct (Req_dec_T (floor s) (ceil s)) as [E | NE].
  - split; [reflexivity|]. split.
    + intros Hni. exfalso. apply Hni. now apply floor_eq_ceil_iff.
    + intros Hhalf. exfalso.
      destruct (ceil_bounds s). lra.
  - split; [|split].
    + intros Hi. exfalso. apply NE. now apply floor_eq_ceil_iff.
    + intros _. lra.
    + intros Hhalf. pose proof (ceil_floor_succ s NE) as Hc.
      split; [exact Hc|].
      assert (Ha : a = 1 / 2) by (unfold a; lra).
      rewrite Ha. lra.
Qed.

Lemma atlas_tiles_in_grid_demo :
  inAtlasGrid 114 11 (tileOrigin 11 (float (114 - 1))).
Proof.
  refine (proj1 (proj2 (proj2 (proj2 (proj2
            (atlas_tiles_in_grid 114 11 (Vec3 0 0 1) _ _ _)))))).
  - lia.
  - lia.
  - cbn. lra.
Defined.

(** The example of the specification: slice 0 samples 0.2, slice 1 samples
    0.8, and half way between them [sampleVolume] returns 0.5. *)
Lemma sampleVolume_midpoint_demo :
  MidpointScene.sample (Vec3 0 0 0.5) = 0.5.
Proof.
  unfold MidpointScene.sample.
  assert (Hz : 0 <= z3 (Vec3 0 0 0.5) <= 1) by (cbn; lra).
  assert (Hn : (2 <= 2)%Z) by lia.
  destruct (sampleVolume_interpolation MidpointScene.atlas 2 2 0.5 1
              (Vec3 0 0 0.5) Hz Hn) as (_ & _ & Hmid).
  cbn [z3] in Hmid. unfold float in Hmid.
  assert (Hf : floor (0.5 * IZR (2 - 1)) = IZR 0)
    by (apply floor_unique; cbn; lra).
  rewrite Hf in Hmid.
  destruct Hmid as [Hc ->]; [cbn; lra|].
  rewrite Hc. replace (0 + 1) with (IZR 1) by lra.
  unfold sliceSample, texture2D. rewrite !tileOrigin_IZR by lia.
  unfold MidpointScene.atlas, mul2, add2, xy; cbn [x2 y2 x3 y3].
  change (0 mod 2)%Z with 0%Z. change (1 mod 2)%Z with 1%Z.
  destruct (Rlt_dec ((0 + 0) * 0.5) 0.5) as [_ | N]; [|exfalso; lra].
  destruct (Rlt_dec ((1 + 0) * 0.5) 0.5) as [L | _]; [exfalso; lra|].
  cbn [r4]. lra.
Defined.

(** *** The transfer function and the composite step *)

Lemma Rgtb_true (x y : R) : Rgtb x y = true <-> x > y.
Proof. unfold Rgtb. destruct (Rgt_dec x y); split; intros; easy. Qed.

Lemma Rgtb_false (x y : R) : Rgtb x y = false <-> x <= y.
Proof.
  unfold Rgtb. destruct (Rgt_dec x y); split; intros; try easy; lra.
Qed.

Lemma Rltb_true (x y : R) : Rltb x y = true <-> x < y.
Proof. unfold Rltb. destruct (Rlt_dec x y); split; intros; easy. Qed.

Lemma Rltb_false (x y : R) : Rltb x y = false <-> y <= x.
Proof.
  unfold Rltb. destruct (Rlt_dec x y); split; intros; try easy; lra.
Qed.

Lemma tfAbsorbtion_nonneg (sample : R) : 0 <= tfAbsorbtion sample.
Proof.
  unfold tfAbsorbtion.
  destruct (Rltb (powf sample 1.1) 0.05) eqn:E; [lra|].
  apply Rltb_false in E. lra.
Qed.

Lemma exp_nonpos_le_1 (x : R) : x <= 0 -> 0 < exp x <= 1.
Proof.
  intros Hx. split; [apply exp_pos|].
  destruct (Req_dec_T x 0) as [-> | Hne].
  - rewrite exp_0. lra.
  - rewrite <- exp_0. left. apply exp_increasing. lra.
Qed.

Lemma tfOpacity_range (sample : R) : 0 <= tfOpacity sample < 1.
Proof.
  unfold tfOpacity, step.
  pose proof (tfAbsorbtion_nonneg sample) as Ht.
  destruct (exp_nonpos_le_1 (- (0.01) * tfAbsorbtion sample * 40)); lra.
Qed.

Lemma composite_alpha (sample : R) (c : vec4) :
  a4 (composite sample c) = tfOpacity sample * (1 - a4 c) + a4 c.
Proof. reflexivity. Qed.

(** The alpha update keeps [0,1] and never lowers alpha. *)
Lemma composite_alpha_range (sample : R) (c : vec4) :
  0 <= a4 c <= 1 ->
  0 <= a4 (composite sample c) <= 1 /\ a4 c <= a4 (composite sample c).
Proof.
  intros Hc. rewrite composite_alpha.
  pose proof (tfOpacity_range sample) as Ht. nra.
Qed.

(** *** The loop of [integrateVolume] *)

Section Loop.

Variable uVolumeTexture : sampler2D.
Variables uNumSlices uSlicesPerRow : Z.
Variables uSliceWidth uSliceHeight : R.
Variables entryPoint vector : vec3.
Variable thickness : R.

Let iter :=
  loopIter uVolumeTexture uNumSlices uSlicesPerRow uSliceWidth uSliceHeight
    entryPoint vector thickness.
Let run :=
  loopRun uVolumeTexture uNumSlices uSlicesPerRow uSliceWidth uSliceHeight
    entryPoint vector thickness.
Let sampleAt (d : R) :=
  sampleVolume uVolumeTexture uNumSlices uSlicesPerRow uSliceWidth uSliceHeight
    (add3 entryPoint (mul3 vector (splat3 d))).

Lemma iter_Some (st st' : LoopState) :
  iter st = Some st' ->
  (i st < 10000)%Z /\ depth st <= thickness /\ a4 (color st) <= 0.98 /\
  st' = {| i := i st + 1; depth := depth st + step;
           color := composite (sampleAt (depth st)) (color st) |}.
Proof.
  unfold iter, loopIter. fold (sampleAt (depth st)).
  destruct (i st <? 10000)%Z eqn:Ei; [|discriminate].
  destruct (Rgtb (depth st) thickness) eqn:Ed; [discriminate|].
  destruct (Rgtb (a4 (color st)) 0.98) eqn:Ea; [discriminate|].
  cbn [orb]. intros [= <-].
  apply Z.ltb_lt in Ei. apply Rgtb_false in Ed. apply Rgtb_false in Ea.
  auto.
Qed.

Lemma iter_None (st : LoopState) :
  iter st = None <->
  (10000 <= i st)%Z \/ depth st > thickness \/ a4 (color st) > 0.98.
Proof.
  unfold iter, loopIter.
  destruct (i st <? 10000)%Z eqn:Ei.
  - apply Z.ltb_lt in Ei.
    destruct (Rgtb (depth st) thickness) eqn:Ed.
    + apply Rgtb_true in Ed. cbn [orb]. tauto.
    + apply Rgtb_false in Ed.
      destruct (Rgtb (a4 (color st)) 0.98) eqn:Ea; cbn [orb].
      * apply Rgtb_true in Ea. tauto.
      * apply Rgtb_false in Ea. split; [discriminate|].
        intros [H | [H | H]]; [lia | lra | lra].
  - apply Z.ltb_ge in Ei. tauto.
Qed.

Lemma run_S (n : nat) (st : LoopState) :
  run (S n) st = match iter st with None => st | Some st' => run n st' end.
Proof. reflexivity. Qed.

Lemma run_stopped (n : nat) (st : LoopState) : iter st = None -> run n st = st.
Proof.
  intros H. destruct n; [reflexivity|]. rewrite run_S. now rewrite H.
Qed.

Lemma run_add (n m : nat) (st : LoopState) :
  run (n + m) st = run m (run n st).
Proof.
  revert st. induction n as [|n IH]; intros st; [reflexivity|].
  cbn [Nat.add]. rewrite !run_S.
  destruct (iter st) as [st'|] eqn:E.
  - apply IH.
  - symmetry. now apply run_stopped.
Qed.

(** One more turn at the end. *)
Lemma run_succ (n : nat) (st : LoopState) :
  run (S n) st =
  match iter (run n st) with None => run n st | Some st' => st' end.
Proof.
  replace (S n) with (n + 1)%nat by lia. rewrite run_add.
  rewrite run_S. now destruct (iter (run n st)).
Qed.

(** The loop counter counts the turns taken: either the loop has been left,
    or all [n] turns were taken. *)
Lemma run_counter (n : nat) (st : LoopState) :
  (i st <= i (run n st) <= i st + Z.of_nat n)%Z /\
  (iter (run n st) = None \/ i (run n st) = (i st + Z.of_nat n)%Z).
Proof.
  induction n as [|n [IHi IHd]].
  - cbn. split; [lia|]. right. lia.
  - rewrite run_succ. destruct (iter (run n st)) as [st'|] eqn:E.
    + destruct IHd as [IHd | IHd]; [discriminate|].
      apply iter_Some in E. destruct E as (Hi & _ & _ & ->). cbn [i].
      split; [lia|]. right. lia.
    + split; [lia|]. now left.
Qed.

(** The loop is over after at most 10000 turns: the fuel [integrateVolume]
    gives it is enough. *)
Lemma run_terminates (st : LoopState) :
  (0 <= i st)%Z -> iter (run (Z.to_nat 10000) st) = None.
Proof.
  intros Hi.
  destruct (run_counter (Z.to_nat 10000) st) as [_ [H | H]]; [exact H|].
  apply iter_None. left. rewrite H. rewrite Z2Nat.id; lia.
Qed.

(** Accumulated alpha stays in [0,1] and never decreases. *)
Lemma run_alpha_range (n : nat) (st : LoopState) :
  0 <= a4 (color st) <= 1 -> 0 <= a4 (color (run n st)) <= 1.
Proof.
  intros Hst. induction n as [|n IH]; [exact Hst|].
  rewrite run_succ. destruct (iter (run n st)) as [st'|] eqn:E; [|exact IH].
  apply iter_Some in E. destruct E as (_ & _ & _ & ->). cbn [color].
  now apply composite_alpha_range.
Qed.

Lemma run_alpha_step (n : nat) (st : LoopState) :
  0 <= a4 (color st) <= 1 ->
  a4 (color (run n st)) <= a4 (color (run (S n) st)).
Proof.
  intros Hst. rewrite run_succ.
  destruct (iter (run n st)) as [st'|] eqn:E; [|lra].
  apply iter_Some in E. destruct E as (_ & _ & _ & ->). cbn [color].
  now apply composite_alpha_range, run_alpha_range.
Qed.

Lemma run_alpha_mono (n m : nat) (st : LoopState) :
  0 <= a4 (color st) <= 1 -> (n <= m)%nat ->
  a4 (color (run n st)) <= a4 (color (run m st)).
Proof.
  intros Hst Hnm. induction Hnm as [|m Hnm IH]; [lra|].
  pose proof (run_alpha_step m st Hst). lra.
Qed.

(** Once a turn leaves the loop, more fuel changes nothing. *)
Lemma run_stable (n m : nat) (st : LoopState) :
  iter (run n st) = None -> (n <= m)%nat -> run m st = run n st.
Proof.
  intros H Hnm. replace m with (n + (m - n))%nat by lia.
  rewrite run_add. now apply run_stopped.
Qed.

Lemma run_counter_cap (n : nat) (st : LoopState) :
  (i st <= 10000)%Z -> (i (run n st) <= 10000)%Z.
Proof.
  intros Hst. induction n as [|n IH]; [exact Hst|].
  rewrite run_succ. destruct (iter (run n st)) as [st'|] eqn:E; [|exact IH].
  apply iter_Some in E. destruct E as (Hi & _ & _ & ->). cbn [i]. lia.
Qed.

End Loop.

Lemma integrateVolume_trace (tex : sampler2D) (n spr : Z) (w h : R)
    (entryPoint exitPoint : vec3) :
  integrateVolume tex n spr w h entryPoint exitPoint =
  color (integrateTrace tex n spr w h entryPoint exitPoint (Z.to_nat 10000)).
Proof. reflexivity. Qed.

(** A blend of texels in [0,1] is in [0,1]. *)
Lemma sampleVolume_range (tex : sampler2D) (n spr : Z) (w h : R) (pos : vec3) :
  (forall uv, 0 <= r4 (tex uv) <= 1) ->
  0 <= sampleVolume tex n spr w h pos <= 1.
Proof.
  intros Htex. rewrite sampleVolume_unfold. cbv zeta.
  set (s := z3 pos * float (n - 1)).
  destruct (Req_dec_T (floor s) (ceil s)) as [E | NE].
  - apply Htex.
  - unfold sliceSample, texture2D.
    match goal with
    | |- 0 <= r4 (tex ?u) * _ + r4 (tex ?v) * _ <= 1 =>
        pose proof (Htex u); pose proof (Htex v);
        generalize dependent (r4 (tex u)); generalize dependent (r4 (tex v))
    end.
    intros vb Hb va Ha. destruct (ceil_bounds s).
    generalize dependent (ceil s). intros c _ Hc1 Hc2. nra.
Qed.

(** C2: the loop of [integrateVolume] composites front to back.  The
    accumulator starts as transparent black at depth 0, and every turn the
    loop takes (the turn is not left: the depth is within the thickness and
    the accumulated alpha is not above 0.98) updates it as follows: with
    [stepAlpha = 1 - exp(-stepSize * opacity * densityScale)], where
    [stepSize = 0.01], [densityScale = 40] and the opacity is the
    transfer-function absorption of the sample taken at the current depth
    along the ray, the new color is
    [sampleColor * stepAlpha * (1 - color.a) + color.rgb], the new alpha is
    [stepAlpha * (1 - color.a) + color.a], and depth advances by [stepSize].
    A turn that is left changes nothing, and [integrateVolume] returns the
    accumulator the loop ends with. *)
Theorem loop_turn_composites
    (uVolumeTexture : sampler2D) (uNumSlices uSlicesPerRow : Z)
    (uSliceWidth uSliceHeight : R) (entryPoint exitPoint : vec3) :
  let state :=
    integrateTrace uVolumeTexture uNumSlices uSlicesPerRow uSliceWidth
      uSliceHeight entryPoint exitPoint in
  let vector := normalize (sub3 exitPoint entryPoint) in
  let thickness := length3 (sub3 exitPoint entryPoint) in
  (color (state 0%nat) = Vec4 0 0 0 0 /\ depth (state 0%nat) = 0) /\
  (forall n : nat,
     let colorAccum := color (state n) in
     let sample :=
       sampleVolume uVolumeTexture uNumSlices uSlicesPerRow uSliceWidth
         uSliceHeight
         (add3 entryPoint (mul3 vector (splat3 (depth (state n))))) in
     let stepAlpha := 1 - exp (- (0.01) * tfAbsorbtion sample * 40) in
     (Z.of_nat n < 10000)%Z -> depth (state n) <= thickness ->
     a4 colorAccum <= 0.98 ->
     rgb (color (state (S n))) =
       add3 (mul3 (mul3 (sampleColor sample) (splat3 stepAlpha))
                  (splat3 (1 - a4 colorAccum)))
            (rgb colorAccum) /\
     a4 (color (state (S n))) = stepAlpha * (1 - a4 colorAccum) + a4 colorAccum /\
     depth (state (S n)) = depth (state n) + 0.01) /\
  (forall n : nat,
     depth (state n) > thickness \/ a4 (color (state n)) > 0.98 ->
     state (S n) = state n) /\
  integrateVolume uVolumeTexture uNumSlices uSlicesPerRow uSliceWidth
    uSliceHeight entryPoint exitPoint = color (state (Z.to_nat 10000)).
Proof.
  intros state vector thickness.
  assert (Hnext : forall n : nat,
    state (S n) =
    match loopIter uVolumeTexture uNumSlices uSlicesPerRow uSliceWidth
            uSliceHeight entryPoint vector thickness (state n) with
    | None => state n
    | Some st' => st'
    end).
  { intros n. unfold state, integrateTrace. apply run_succ. }
  split; [split; reflexivity|]. split; [|split].
  - intros n colorAccum sample stepAlpha Hn Hd Ha. rewrite Hnext.
    destruct (loopIter uVolumeTexture uNumSlices uSlicesPerRow uSliceWidth
                uSliceHeight entryPoint vector thickness (state n))
      as [st'|] eqn:E.
    + apply iter_Some in E. destruct E as (_ & _ & _ & ->).
      cbn [color depth]. repeat split.
    + exfalso. apply iter_None in E. destruct E as [E | [E | E]].
      * pose proof (run_counter uVolumeTexture uNumSlices uSlicesPerRow
                      uSliceWidth uSliceHeight entryPoint vector thickness
                      n loopStart) as [[_ Hi] _].
        unfold state, integrateTrace in E. fold vector thickness in E.
        cbn [i loopStart] in Hi. lia.
      * lra.
      * unfold colorAccum in Ha. lra.
  - intros n Hleft. rewrite Hnext.
    destruct (loopIter uVolumeTexture uNumSlices uSlicesPerRow uSliceWidth
                uSliceHeight entryPoint vector thickness (state n))
      as [st'|] eqn:E; [|reflexivity].
    exfalso. apply iter_Some in E. destruct E as (_ & Hd & Ha & _). lra.
  - apply integrateVolume_trace.
Qed.

(** C10: when every texel of the volume is in [0,1], the accumulated alpha of
    [integrateVolume] starts at 0 and is in [0,1] after any number of turns;
    every sample taken is in [0,1], its absorption is non-negative, its
    per-step alpha [1 - exp(-step * absorption * 40)] is in [0,1), and the
    update [a' = stepAlpha * (1 - a) + a] maps [0,1] into [0,1]. *)
Theorem alpha_stays_in_unit_interval
    (uVolumeTexture : sampler2D) (uNumSlices uSlicesPerRow : Z)
    (uSliceWidth uSliceHeight : R) (entryPoint exitPoint : vec3) :
  (forall uv, 0 <= r4 (texture2D uVolumeTexture uv) <= 1) ->
  let state :=
    integrateTrace uVolumeTexture uNumSlices uSlicesPerRow uSliceWidth
      uSliceHeight entryPoint exitPoint in
  a4 (color (state 0%nat)) = 0 /\
  (forall n : nat, 0 <= a4 (color (state n)) <= 1) /\
  0 <= a4 (integrateVolume uVolumeTexture uNumSlices uSlicesPerRow
             uSliceWidth uSliceHeight entryPoint exitPoint) <= 1 /\
  (forall pos : vec3,
     let sample :=
       sampleVolume uVolumeTexture uNumSlices uSlicesPerRow uSliceWidth
         uSliceHeight pos in
     let stepAlpha := 1 - exp (- step * tfAbsorbtion sample * 40) in
     0 <= sample <= 1 /\ 0 <= tfAbsorbtion sample /\ 0 <= stepAlpha < 1 /\
     forall a : R, 0 <= a <= 1 -> 0 <= stepAlpha * (1 - a) + a <= 1).
Proof.
  intros Htex state.
  assert (Hstart : 0 <= a4 (color loopStart) <= 1) by (cbn; lra).
  refine (conj eq_refl (conj _ (conj _ _))).
  - intros n. unfold state, integrateTrace. now apply run_alpha_range.
  - rewrite integrateVolume_trace. unfold integrateTrace.
    now apply run_alpha_range.
  - intros pos sample stepAlpha.
    pose proof (tfOpacity_range sample) as Ht.
    change (0 <= stepAlpha < 1) in Ht.
    refine (conj _ (conj _ (conj Ht _))).
    + now apply sampleVolume_range.
    + apply tfAbsorbtion_nonneg.
    + clearbody stepAlpha. intros a Ha. nra.
Qed.


(** C3 (as the loop is written): over the turns of the loop of
    [integrateVolume] the accumulated alpha never decreases; the loop counter
    never passes 10000 and the loop is over after at most 10000 turns; and
    once the accumulated alpha exceeds 0.98 no later turn changes the loop
    variables, so that [integrateVolume] returns the color accumulated by
    then. *)
Theorem integrate_monotone_capped
    (uVolumeTexture : sampler2D) (uNumSlices uSlicesPerRow : Z)
    (uSliceWidth uSliceHeight : R) (entryPoint exitPoint : vec3) :
  let state :=
    integrateTrace uVolumeTexture uNumSlices uSlicesPerRow uSliceWidth
      uSliceHeight entryPoint exitPoint in
  (forall n : nat, a4 (color (state n)) <= a4 (color (state (S n)))) /\
  (forall n : nat, (0 <= i (state n) <= 10000)%Z) /\
  loopIter uVolumeTexture uNumSlices uSlicesPerRow uSliceWidth uSliceHeight
    entryPoint (normalize (sub3 exitPoint entryPoint))
    (length3 (sub3 exitPoint entryPoint)) (state (Z.to_nat 10000)) = None /\
  (forall n : nat, a4 (color (state n)) > 0.98 ->
     (forall m : nat, (n <= m)%nat -> state m = state n) /\
     integrateVolume uVolumeTexture uNumSlices uSlicesPerRow uSliceWidth
       uSliceHeight entryPoint exitPoint = color (state n)).
Proof.
  intros state.
  assert (Hstart : 0 <= a4 (color loopStart) <= 1) by (cbn; lra).
  assert (Hend : loopIter uVolumeTexture uNumSlices uSlicesPerRow uSliceWidth
            uSliceHeight entryPoint (normalize (sub3 exitPoint entryPoint))
            (length3 (sub3 exitPoint entryPoint)) (state (Z.to_nat 10000))
          = None).
  { unfold state, integrateTrace. apply run_terminates. cbn [i loopStart]. lia. }
  split; [|split; [|split; [exact Hend|]]].
  - intros n. unfold state, integrateTrace. apply run_alpha_step, Hstart.
  - intros n. unfold state, integrateTrace. split.
    + apply (run_counter _ _ _ _ _ _ _ _ n loopStart).
    + apply run_counter_cap. cbn [i loopStart]. lia.
  - intros n Hn.
    assert (Hleft : loopIter uVolumeTexture uNumSlices uSlicesPerRow
              uSliceWidth uSliceHeight entryPoint
              (normalize (sub3 exitPoint entryPoint))
              (length3 (sub3 exitPoint entryPoint)) (state n) = None)
      by (apply iter_None; right; right; exact Hn).
    split.
    + intros m Hm. unfold state, integrateTrace in *.
      apply run_stable; assumption.
    + rewrite integrateVolume_trace. fold state. f_equal.
      unfold state, integrateTrace in *.
      destruct (Nat.le_gt_cases n (Z.to_nat 10000)) as [Hle | Hgt].
      * apply run_stable; assumption.
      * symmetry. apply run_stable; [exact Hend | apply Nat.lt_le_incl, Hgt].
Qed.

(** C4: when the entry point or the exit point sampled for a pixel has alpha
    below 0.1, [main] writes the transparent color (0,0,0,0) whatever the
    volume texture and the slice uniforms are: nothing of the volume, and so
    nothing [integrateVolume] could compute, reaches the output. *)
Theorem main_ray_miss
    (uEntryPointsSampler uExitPointsSampler uVolumeTexture : sampler2D)
    (uNumSlices uSlicesPerRow : Z) (uSliceWidth uSliceHeight : R)
    (vUV : vec2) :
  a4 (texture2D uEntryPointsSampler vUV) < 0.1 \/
  a4 (texture2D uExitPointsSampler vUV) < 0.1 ->
  main uEntryPointsSampler uExitPointsSampler uVolumeTexture uNumSlices
    uSlicesPerRow uSliceWidth uSliceHeight vUV = Vec4 0 0 0 0 /\
  forall (volume' : sampler2D) (n' spr' : Z) (w' h' : R),
    main uEntryPointsSampler uExitPointsSampler volume' n' spr' w' h' vUV =
    main uEntryPointsSampler uExitPointsSampler uVolumeTexture uNumSlices
      uSlicesPerRow uSliceWidth uSliceHeight vUV.
Proof.
  intros Hmiss.
  assert (Hcond : Rltb (a4 (texture2D uEntryPointsSampler vUV)) 0.1
                  || Rltb (a4 (texture2D uExitPointsSampler vUV)) 0.1 = true).
  { apply orb_true_iff. destruct Hmiss as [H | H]; [left | right];
      now apply Rltb_true. }
  unfold main. rewrite Hcond. split; [reflexivity|]. intros. reflexivity.
Qed.

(** A pixel outside the silhouette of the cube: both targets still hold the
    clear color. *)
Lemma main_ray_miss_demo :
  main (fun _ => Vec4 0 0 0 0) (fun _ => Vec4 0 0 0 0)
    MidpointScene.atlas 2 2 0.5 1 (Vec2 0.5 0.5) = Vec4 0 0 0 0.
Proof.
  refine (proj1 (main_ray_miss _ _ _ _ _ _ _ _ _)).
  left. cbn. lra.
Defined.

(** The first turn of the loop on a ray through the two-slice scene. *)
Lemma loop_turn_composites_demo :
  let state :=
    integrateTrace MidpointScene.atlas 2 2 0.5 1 (Vec3 0.5 0.5 0)
      (Vec3 0.5 0.5 1) in
  let vector := normalize (sub3 (Vec3 0.5 0.5 1) (Vec3 0.5 0.5 0)) in
  let sample :=
    sampleVolume MidpointScene.atlas 2 2 0.5 1
      (add3 (Vec3 0.5 0.5 0) (mul3 vector (splat3 (depth (state 0%nat))))) in
  let stepAlpha := 1 - exp (- (0.01) * tfAbsorbtion sample * 40) in
  rgb (color (state 1%nat)) =
    add3 (mul3 (mul3 (sampleColor sample) (splat3 stepAlpha))
               (splat3 (1 - a4 (color (state 0%nat)))))
         (rgb (color (state 0%nat))) /\
  a4 (color (state 1%nat)) =
    stepAlpha * (1 - a4 (color (state 0%nat))) + a4 (color (state 0%nat)) /\
  depth (state 1%nat) = depth (state 0%nat) + 0.01.
Proof.
  apply (proj1 (proj2
           (loop_turn_composites MidpointScene.atlas 2 2 0.5 1
              (Vec3 0.5 0.5 0) (Vec3 0.5 0.5 1))) 0%nat).
  - lia.
  - cbn [integrateTrace loopRun loopStart depth]. unfold length3.
    apply sqrt_pos.
  - cbn [integrateTrace loopRun loopStart color a4]. lra.
Defined.

(** *** The threshold scene *)

Section Threshold.
Import ThresholdScene.

Lemma ln_50_bounds : 0.4 < ln 50 < 8.
Proof.
  split.
  - rewrite <- (ln_exp 0.4). apply ln_increasing; [apply exp_pos|].
    apply Rlt_trans with (exp 1); [apply exp_increasing; lra|].
    pose proof exp_le_3. lra.
  - rewrite <- (ln_exp 8). apply ln_increasing; [lra|].
    replace 8 with (2 + 2 + (2 + 2)) by lra. rewrite !exp_plus.
    assert (H : 3 < exp 2) by (pose proof (exp_ineq1 2); lra).
    assert (H2 : 9 < exp 2 * exp 2) by nra.
    generalize dependent (exp 2 * exp 2). intros e2 He2.
    nra.
Qed.

Lemma absorbtion_range : 0.05 <= absorbtion < 1.
Proof. unfold absorbtion. pose proof ln_50_bounds. lra. Qed.

(** The texel is a legal luminance. *)
Lemma texel_range : 0 < texel <= 1.
Proof.
  unfold texel, Rpower. pose proof absorbtion_range as Ha.
  apply exp_nonpos_le_1.
  assert (ln absorbtion < 0).
  { rewrite <- ln_1. apply ln_increasing; lra. }
  nra.
Qed.

Lemma tfAbsorbtion_texel : tfAbsorbtion texel = absorbtion.
Proof.
  pose proof absorbtion_range as Ha. pose proof texel_range as Ht.
  assert (E : powf texel 1.1 = absorbtion).
  { unfold powf. destruct (Rlt_dec 0 texel) as [_ | N]; [|lra].
    unfold texel. rewrite Rpower_mult.
    replace (/ 1.1 * 1.1) with 1 by lra. apply Rpower_1. lra. }
  unfold tfAbsorbtion. rewrite E.
  destruct (Rltb absorbtion 0.05) eqn:B; [|reflexivity].
  apply Rltb_true in B. lra.
Qed.

Lemma tfOpacity_texel : tfOpacity texel = 1 - transmittance.
Proof.
  unfold tfOpacity, transmittance. rewrite tfAbsorbtion_texel.
  unfold absorbtion, step. do 2 f_equal. lra.
Qed.

Lemma transmittance_range : 0 < transmittance < 1.
Proof.
  unfold transmittance. pose proof ln_50_bounds.
  split; [apply exp_pos|]. rewrite <- exp_0. apply exp_increasing. lra.
Qed.

Lemma exp_pow_nat (x : R) (n : nat) : exp x ^ n = exp (INR n * x).
Proof.
  induction n as [|n IH].
  - cbn. rewrite Rmult_0_l, exp_0. reflexivity.
  - rewrite S_INR. cbn [pow]. rewrite IH, <- exp_plus. f_equal. lra.
Qed.

Lemma transmittance_pow_20 : transmittance ^ 20 = 0.02.
Proof.
  unfold transmittance. rewrite exp_pow_nat.
  replace (INR 20 * - (ln 50 / 20)) with (- ln 50)
    by (replace (INR 20) with 20 by (cbn; lra); lra).
  rewrite exp_Ropp, exp_ln by lra. lra.
Qed.

Lemma transmittance_pow_ge (k : nat) :
  (k <= 20)%nat -> 0.02 <= transmittance ^ k.
Proof.
  intros Hk. rewrite <- transmittance_pow_20.
  replace 20%nat with (k + (20 - k))%nat by lia. rewrite pow_add.
  pose proof transmittance_range as Hq.
  assert (0 < transmittance ^ k) by (apply pow_lt; lra).
  assert (transmittance ^ (20 - k) <= 1).
  { rewrite <- (pow1 (20 - k)). apply pow_incr. lra. }
  nra.
Qed.

Lemma sampleVolume_constant (c : R) (n spr : Z) (w h : R) (pos : vec3) :
  sampleVolume (constantVolume c) n spr w h pos = c.
Proof.
  rewrite sampleVolume_unfold. cbv zeta. unfold sliceSample, texture2D.
  cbn [constantVolume r4].
  destruct (Req_dec_T _ _); [reflexivity | lra].
Qed.

Lemma scene_thickness : length3 (sub3 exitPoint entryPoint) = 1.
Proof.
  unfold length3, sub3, exitPoint, entryPoint; cbn [x3 y3 z3].
  replace ((0.5 - 0.5) * (0.5 - 0.5) + (0.5 - 0.5) * (0.5 - 0.5)
           + (1 - 0) * (1 - 0)) with 1 by lra.
  apply sqrt_1.
Qed.

Lemma state_succ (k : nat) :
  state (S k) =
  match loopIter (constantVolume texel) 10 10 0.1 1 entryPoint
          (normalize (sub3 exitPoint entryPoint))
          (length3 (sub3 exitPoint entryPoint)) (state k) with
  | None => state k
  | Some st' => st'
  end.
Proof. unfold state, integrateTrace. apply run_succ. Qed.

(** Up to the 21st turn the loop is not left: turn [k] finds [i = k],
    [depth = k * 0.01] and alpha [1 - transmittance ^ k]. *)
Lemma state_closed_form (k : nat) :
  (k <= 21)%nat ->
  i (state k) = Z.of_nat k /\ depth (state k) = INR k * 0.01 /\
  a4 (color (state k)) = 1 - transmittance ^ k.
Proof.
  induction k as [|k IH]; intros Hk.
  - cbn. repeat split; lra.
  - destruct IH as (Hi & Hd & Ha); [lia|].
    rewrite state_succ. unfold loopIter.
    rewrite scene_thickness, sampleVolume_constant.
    assert (Ei : (i (state k) <? 10000)%Z = true)
      by (apply Z.ltb_lt; rewrite Hi; lia).
    assert (Ed : Rgtb (depth (state k)) 1 = false).
    { apply Rgtb_false. rewrite Hd.
      assert (INR k <= INR 20) by (apply le_INR; lia).
      replace (INR 20) with 20 in * by (cbn; lra). lra. }
    assert (Ea : Rgtb (a4 (color (state k))) 0.98 = false).
    { apply Rgtb_false. rewrite Ha.
      pose proof (transmittance_pow_ge k ltac:(lia)). lra. }
    rewrite Ei, Ed, Ea. cbn [orb i depth color].
    rewrite composite_alpha, tfOpacity_texel, Hi, Hd, Ha, S_INR.
    unfold step. cbn [pow]. repeat split; [lia | lra | lra].
Qed.

Lemma fuel_covers_21 : (21 <= Z.to_nat 10000)%nat.
Proof. lia. Qed.

Lemma result_alpha : a4 result > 0.98.
Proof.
  assert (H21 : a4 (color (state 21)) > 0.98).
  { destruct (state_closed_form 21) as (_ & _ & ->); [lia|].
    change (transmittance ^ 21) with (transmittance * transmittance ^ 20).
    rewrite transmittance_pow_20. pose proof transmittance_range. lra. }
  assert (Hmono : a4 (color (state 21))
                  <= a4 (color (state (Z.to_nat 10000)))).
  { unfold state, integrateTrace. apply run_alpha_mono.
    - cbn; lra.
    - exact fuel_covers_21. }
  unfold result. rewrite integrateVolume_trace. fold state. lra.
Qed.

(** C3, as stated, fails when alpha is exactly 0.98: the loop tests
    [color.a > 0.98].  In the threshold scene, whose texel is a legal
    luminance, alpha is 0.98 after 20 turns, the 21st turn is taken all the
    same, and the color [integrateVolume] returns is not the one accumulated
    when alpha reached 0.98. *)
Lemma alpha_exactly_at_threshold_continues :
  ~ (a4 (color (state 20)) >= 0.98 -> result = color (state 20)).
Proof.
  assert (H20 : a4 (color (state 20)) = 0.98).
  { destruct (state_closed_form 20) as (_ & _ & ->); [lia|].
    rewrite transmittance_pow_20. lra. }
  intros H. assert (E : result = color (state 20)) by (apply H; lra).
  pose proof result_alpha as Hr. rewrite E in Hr. lra.
Qed.

(** In the threshold scene alpha exceeds 0.98 after 21 turns, and what
    [integrateVolume] returns is the color of that moment. *)
Lemma integrate_monotone_capped_demo : result = color (state 21).
Proof.
  refine (proj2 (proj2 (proj2 (proj2
            (integrate_monotone_capped (constantVolume texel) 10 10 0.1 1
               entryPoint exitPoint))) 21%nat _)).
  fold state.
  destruct (state_closed_form 21) as (_ & _ & ->); [lia|].
  change (transmittance ^ 21) with (transmittance * transmittance ^ 20).
  rewrite transmittance_pow_20. pose proof transmittance_range. lra.
Defined.

Lemma alpha_stays_in_unit_interval_demo : 0 <= a4 result <= 1.
Proof.
  refine (proj1 (proj2 (proj2
            (alpha_stays_in_unit_interval (constantVolume texel) 10 10 0.1 1
               entryPoint exitPoint _)))).
  intros uv. cbn. pose proof texel_range. lra.
Defined.

End Threshold.

End ShaderProps.

(** ** Properties of the renderer *)

Module RendererProps.
Import JS.
Local Open Scope string_scope.
Local Open Scope Q_scope.

Lemma lookupN_storeN_same {A} (k : nat) (v : A) (l : list (nat * A)) :
  lookupN k (storeN k v l) = Some v.
Proof.
  induction l as [|[k' v'] l IH]; cbn.
  - now rewrite Nat.eqb_refl.
  - destruct (Nat.eqb k k') eqn:E; cbn.
    + now rewrite Nat.eqb_refl.
    + now rewrite E.
Qed.

Lemma lookupN_storeN_other {A} (k k' : nat) (v : A) (l : list (nat * A)) :
  k <> k' -> lookupN k (storeN k' v l) = lookupN k l.
Proof.
  intros Hne. induction l as [|[k'' v''] l IH]; cbn.
  - apply Nat.eqb_neq in Hne. now rewrite Hne.
  - destruct (Nat.eqb k' k'') eqn:E; cbn.
    + apply Nat.eqb_eq in E. subst k''.
      apply Nat.eqb_neq in Hne. now rewrite Hne.
    + destruct (Nat.eqb k k''); [reflexivity | exact IH].
Qed.

(** *** Running statements *)

Lemma bind_assoc {A B C} (m : JSM A) (f : A -> JSM B) (g : B -> JSM C)
    (wd : World) :
  bind (bind m f) g wd = bind m (fun a => bind (f a) g) wd.
Proof. unfold bind. destruct (m wd) as [wd' [a | e]]; reflexivity. Qed.

Lemma bind_ret {A B} (a : A) (f : A -> JSM B) (wd : World) :
  bind (ret a) f wd = f a wd.
Proof. reflexivity. Qed.

Lemma bind_deref {A B} (a : A) (f : A -> JSM B) (wd : World) :
  bind (deref (Some a)) f wd = f a wd.
Proof. reflexivity. Qed.

Lemma bind_glCall {B} (g : GLContext -> GLContext) (f : unit -> JSM B)
    (wd : World) :
  bind (glCall g) f wd = f tt (set_context (g (context wd)) wd).
Proof. reflexivity. Qed.

Lemma bind_getThis {B} (f : VolumeRenderer -> JSM B) (wd : World) :
  bind getThis f wd = f (this wd) wd.
Proof. reflexivity. Qed.

Lemma bind_getGL {B} (f : GLContext -> JSM B) (wd : World) :
  bind getGL f wd = f (context wd) wd.
Proof. reflexivity. Qed.

Lemma bind_createObject {B} (f : Handle -> JSM B) (wd : World) :
  bind createObject f wd =
  f (nextHandle (context wd))
    (set_context (set_nextHandle (S (nextHandle (context wd))) (context wd))
       wd).
Proof. reflexivity. Qed.

Lemma bind_updThis {B} (g : VolumeRenderer -> VolumeRenderer)
    (f : unit -> JSM B) (wd : World) :
  bind (updThis g) f wd = f tt (set_this (g (this wd)) wd).
Proof. reflexivity. Qed.

Lemma bind_getGlobalTexture {B} (f : option Handle -> JSM B) (wd : World) :
  bind getGlobalTexture f wd = f (texture wd) wd.
Proof. reflexivity. Qed.

Lemma bind_setGlobalTexture {B} (t : option Handle) (f : unit -> JSM B)
    (wd : World) :
  bind (setGlobalTexture t) f wd = f tt (set_texture t wd).
Proof. reflexivity. Qed.

Lemma gl_useProgram_usable (p : Handle) (po : ProgramObject) (c : GLContext) :
  lookupN p (programs c) = Some po -> usable po = true ->
  gl_useProgram p c = set_currentProgram (Some p) c.
Proof.
  intros L U. unfold gl_useProgram. rewrite L. unfold usable in U.
  now rewrite U.
Qed.

Lemma gl_uniform_current (p : Handle) (name : string) (v : UniformValue)
    (po : ProgramObject) (c : GLContext) :
  currentProgram c = Some p -> lookupN p (programs c) = Some po ->
  gl_uniform (Some (p, name)) v c =
  set_programs
    (storeN p
       {| po_vertex := po_vertex po; po_fragment := po_fragment po;
          po_linked := po_linked po; po_deleted := po_deleted po;
          po_uniforms := storeS name v (po_uniforms po) |}
       (programs c)) c.
Proof.
  intros C L. unfold gl_uniform. rewrite C, Nat.eqb_refl, L. reflexivity.
Qed.

Lemma lookupS_storeS_same {A} (k : string) (v : A) (l : list (string * A)) :
  lookupS k (storeS k v l) = Some v.
Proof.
  induction l as [|[k' v'] l IH]; cbn.
  - now rewrite String.eqb_refl.
  - destruct (String.eqb k k') eqn:E; cbn.
    + now rewrite String.eqb_refl.
    + now rewrite E.
Qed.

Lemma lookupS_storeS_other {A} (k k' : string) (v : A)
    (l : list (string * A)) :
  String.eqb k k' = false -> lookupS k (storeS k' v l) = lookupS k l.
Proof.
  intros Hne. induction l as [|[k'' v''] l IH]; cbn.
  - now rewrite Hne.
  - destruct (String.eqb k' k'') eqn:E; cbn.
    + apply String.eqb_eq in E. subst k''. now rewrite Hne.
    + destruct (String.eqb k k''); [reflexivity | exact IH].
Qed.

Lemma lookupS_registered (p : Handle) (names : list string) (name : string) :
  memS name names = true ->
  lookupS name (registered p names) = Some (Some (p, name)).
Proof.
  induction names as [|n names IH]; cbn; [discriminate|].
  destruct (String.eqb name n) eqn:E.
  - apply String.eqb_eq in E. now subst n.
  - cbn. exact IH.
Qed.

Lemma uniformLocation_registered (v f : option Shader) (p : Handle)
    (attrs : list (string * Z)) (names : list string) (name : string) :
  memS name names = true ->
  uniformLocation
    {| vs := v; fs := f; program := p; attributes := attrs;
       uniforms := registered p names |} name = Some (p, name).
Proof.
  intros H. unfold uniformLocation. cbn [uniforms].
  now rewrite lookupS_registered.
Qed.

Ltac js_simpl :=
  unfold set_context, set_this, set_texture, set_alerts, set_consoleErrors,
    set_viewportWidth, set_viewportHeight, set_nextHandle, set_programs,
    set_textureObjects, set_currentProgram, set_framebufferBinding,
    set_activeTextureUnit, set_textureBindings, set_depthTest,
    set_depthFuncValue, set_clearDepthValue, set_clearColorValue, set_events,
    gl_bindTexture, gl_clear, gl_draw, snapshot;
  cbn [context this texture alerts consoleErrors
       viewportWidth viewportHeight nextHandle programs textureObjects
       currentProgram framebufferBinding activeTextureUnit textureBindings
       depthTest depthFuncValue clearDepthValue clearColorValue events
       gl canvas anim framebuffers textures shaders domainCube viewportQuad
       exitpoints entrypoints volume_texture entryExitPoints volume
       rendererOf the_canvas the_anim the_exitpoints the_entrypoints
       the_volume_texture the_entryExitPoints the_volume the_domainCube
       the_viewportQuad
       vs fs program attributes uniforms image isLoaded
       src onload_slices onload_slicesPerRow onload_sliceWidth
       onload_sliceHeight width height
       po_vertex po_fragment po_linked po_deleted po_uniforms].

(** Looking a program up after uniform values were stored. *)
Ltac js_lookup :=
  cbn [programs];
  first
    [ eassumption
    | apply lookupN_storeN_same
    | rewrite lookupN_storeN_other
        by first [assumption | apply not_eq_sym; assumption];
      js_lookup ].

Ltac js_gl :=
  repeat first
    [ erewrite gl_useProgram_usable by first [js_lookup | eassumption]
    | rewrite uniformLocation_registered by reflexivity
    | erewrite gl_uniform_current by first [reflexivity | js_lookup]
    | rewrite lookupN_storeN_same ].

Ltac js_step :=
  first [ rewrite bind_assoc | rewrite bind_ret | rewrite bind_deref
        | rewrite bind_glCall | rewrite bind_getThis | rewrite bind_getGL
        | rewrite bind_createObject | rewrite bind_updThis
        | rewrite bind_getGlobalTexture | rewrite bind_setGlobalTexture ];
  js_simpl; js_gl; js_simpl.

Lemma linkedWith_stored (c : GLContext) (p : ShaderProgram)
    (names : list string) (po : ProgramObject) :
  lookupN (program p) (programs c) = Some po -> usable po = true ->
  uniforms p = registered (program p) names ->
  linkedWith c p names.
Proof. intros L U R. split; [exists po; now split | exact R]. Qed.

(** C6: a frame of an initialised renderer is three passes, in this order:
    the exit pass clears the exit-point target with depth -1 and draws the
    cube into it under the GREATER depth test; the entry pass clears the
    entry-point target with depth +1 and draws the cube into it under the
    LESS depth test, with the same program and the same model-view and
    projection matrices; the integration pass clears the canvas and draws
    the full-screen quad with the volume program, the entry points on
    texture unit 0 and the exit points on unit 1.  The renderer is left
    initialised, so the next frame does the same. *)
Theorem draw_three_passes (wd : World) (x : Parts) :
  Initialised wd x ->
  exists (wd' : World) (units1 units2 units3 : list (nat * option Handle))
         (uniforms3 : list (string * UniformValue)),
    let c := context wd in
    let cd := cubeDimensions (the_domainCube x) in
    let transform :=
      storeS "uModelViewMatrix"
        (UMatrix (ModelView (angle (the_anim x)) (w cd) (h cd) (d cd)))
        (storeS "uProjectionMatrix"
           (UMatrix (Perspective (viewportWidth c / viewportHeight c)))
           (uniformsOf c (the_entryExitPoints x))) in
    let cube := numItems (cubeIndexBuffer (the_domainCube x)) in
    draw wd = (wd', Normal tt) /\
    Initialised wd' x /\
    events (context wd') =
      (events c ++
      [ Clear (Some (fb (the_exitpoints x))) (0, 0, 0, 0) (-1);
        Draw TRIANGLES cube
          {| target := Some (fb (the_exitpoints x));
             program_in_use := Some (program (the_entryExitPoints x));
             depth_test := true; depth_func := GREATER;
             uniform_values := transform; texture_units := units1 |};
        Clear (Some (fb (the_entrypoints x))) (0, 0, 0, 0) 1;
        Draw TRIANGLES cube
          {| target := Some (fb (the_entrypoints x));
             program_in_use := Some (program (the_entryExitPoints x));
             depth_test := true; depth_func := LESS;
             uniform_values := transform; texture_units := units2 |};
        Clear None (0, 0, 0, 0) (-1);
        Draw TRIANGLE_FAN 4
          {| target := None;
             program_in_use := Some (program (the_volume x));
             depth_test := true; depth_func := GREATER;
             uniform_values := uniforms3; texture_units := units3 |} ])%list /\
    lookupN 0 units3 = Some (Some (fbTexture (the_entrypoints x))) /\
    lookupN 1 units3 = Some (Some (fbTexture (the_exitpoints x))) /\
    lookupS "uEntryPointsSampler" uniforms3 = Some (UInt 0) /\
    lookupS "uExitPointsSampler" uniforms3 = Some (UInt 1).
Proof.
  intros (Hthis & [(po1 & L1 & U1) R1] & [(po2 & L2 & U2) R2] & Hne).
  destruct wd as [c r tx al ce]. cbn [this context] in *. subst r.
  destruct x as [cv a f1 f2 t p1 p2 dc q].
  cbn [the_entryExitPoints the_volume] in *.
  destruct p1 as [vs1 fs1 h1 at1 un1], p2 as [vs2 fs2 h2 at2 un2].
  cbn [uniforms program] in *. subst un1 un2.
  destruct c as [vw vh nh progs texs cp fbb atu tb dt df cd cc ev].
  cbn [programs] in *.
  unfold Initialised, uniformsOf.
  cbn [context this the_entryExitPoints the_volume the_domainCube the_anim
       the_exitpoints the_entrypoints program programs events viewportWidth
       viewportHeight].
  rewrite L1.
  unfold draw, _setMatrices, ShaderProgram_use, FrameBuffer_attach,
    FrameBuffer_detach, FrameBuffer_bindAsTexture,
    ShaderProgram_setUniformMatrix, ShaderProgram_setUniformInt,
    VolumeCubeDomain_render, FullscreenQuad_render.
  repeat js_step.
  destruct (match lookupN t texs with
            | Some o => isLoaded o
            | None => false
            end); repeat js_step; unfold glCall; js_simpl; js_gl; js_simpl.
  - do 5 eexists.
    refine (conj eq_refl (conj _ (conj _ (conj _ (conj _ (conj _ _)))))).
    + cbn [this context]. split; [reflexivity|]. split; [|split].
      * eapply linkedWith_stored; [js_lookup | exact U1 | reflexivity].
      * eapply linkedWith_stored; [js_lookup | exact U2 | reflexivity].
      * exact Hne.
    + cbn [context events]. rewrite <- !app_assoc. reflexivity.
    + rewrite !lookupN_storeN_other by lia. apply lookupN_storeN_same.
    + rewrite !lookupN_storeN_other by lia. apply lookupN_storeN_same.
    + rewrite lookupS_storeS_other by reflexivity.
      rewrite lookupS_storeS_other by reflexivity.
      apply lookupS_storeS_same.
    + rewrite lookupS_storeS_other by reflexivity.
      apply lookupS_storeS_same.
  - do 5 eexists.
    refine (conj eq_refl (conj _ (conj _ (conj _ (conj _ (conj _ _)))))).
    + cbn [this context]. split; [reflexivity|]. split; [|split].
      * eapply linkedWith_stored; [js_lookup | exact U1 | reflexivity].
      * eapply linkedWith_stored; [js_lookup | exact U2 | reflexivity].
      * exact Hne.
    + cbn [context events]. rewrite <- !app_assoc. reflexivity.
    + rewrite !lookupN_storeN_other by lia. apply lookupN_storeN_same.
    + apply lookupN_storeN_same.
    + rewrite lookupS_storeS_other by reflexivity.
      apply lookupS_storeS_same.
    + apply lookupS_storeS_same.
Qed.

Lemma page_initialised : Initialised pageAfterInit pageParts.
Proof.
  split; [vm_compute; reflexivity|]. split; [|split].
  - split; [|reflexivity]. eexists. split; vm_compute; reflexivity.
  - split; [|reflexivity]. eexists. split; vm_compute; reflexivity.
  - cbn. discriminate.
Qed.

(** The first frame of the page. *)
Lemma draw_three_passes_demo :
  exists wd' : World,
    draw pageAfterInit = (wd', Normal tt) /\ Initialised wd' pageParts.
Proof.
  destruct (draw_three_passes pageAfterInit pageParts page_initialised)
    as (wd' & u1 & u2 & u3 & v3 & Hrun & Hinit & _).
  exists wd'. split; [exact Hrun | exact Hinit].
Defined.

(** *** Between frames the renderer stays initialised *)

(** The programs of [c] are still there in [c'], as usable as before. *)
Definition programsKept (c c' : GLContext) : Prop :=
  forall (p : Handle) (po : ProgramObject),
    lookupN p (programs c) = Some po ->
    exists po', lookupN p (programs c') = Some po' /\ usable po' = usable po.

(** A statement that leaves [this] alone and keeps the programs. *)
Definition Stable {A} (m : JSM A) : Prop :=
  forall (wd wd' : World) (r : Completion A),
    m wd = (wd', r) ->
    this wd' = this wd /\ programsKept (context wd) (context wd').

Lemma programsKept_refl (c : GLContext) : programsKept c c.
Proof. intros p po L. now exists po. Qed.

Lemma programsKept_trans (c1 c2 c3 : GLContext) :
  programsKept c1 c2 -> programsKept c2 c3 -> programsKept c1 c3.
Proof.
  intros H12 H23 p po L.
  destruct (H12 p po L) as (po2 & L2 & U2).
  destruct (H23 p po2 L2) as (po3 & L3 & U3).
  exists po3. split; [exact L3 | congruence].
Qed.

Lemma programsKept_same (c c' : GLContext) :
  programs c' = programs c -> programsKept c c'.
Proof. intros E p po L. exists po. now rewrite E. Qed.

Lemma gl_uniform_kept (loc : option Location) (v : UniformValue)
    (c : GLContext) :
  programsKept c (gl_uniform loc v c).
Proof.
  unfold gl_uniform.
  destruct loc as [[q name]|]; [|apply programsKept_refl].
  destruct (currentProgram c) as [cp|]; [|apply programsKept_refl].
  destruct (Nat.eqb q cp); [|apply programsKept_refl].
  destruct (lookupN cp (programs c)) as [pc|] eqn:Lc;
    [|apply programsKept_refl].
  intros p po L. cbn [programs set_programs].
  destruct (Nat.eq_dec p cp) as [-> | Hne].
  - rewrite lookupN_storeN_same. eexists. split; [reflexivity|].
    rewrite Lc in L. injection L as <-. reflexivity.
  - rewrite lookupN_storeN_other by exact Hne. now exists po.
Qed.

Lemma Stable_ret {A} (a : A) : Stable (ret a).
Proof.
  intros wd wd' r [= <- _]. split; [reflexivity | apply programsKept_refl].
Qed.

Lemma Stable_throw {A} (e : string) : Stable (@throw A e).
Proof.
  intros wd wd' r [= <- _]. split; [reflexivity | apply programsKept_refl].
Qed.

Lemma Stable_deref {A} (o : option A) : Stable (deref o).
Proof. destruct o; [apply Stable_ret | apply Stable_throw]. Qed.

Lemma Stable_bind {A B} (m : JSM A) (f : A -> JSM B) :
  Stable m -> (forall a, Stable (f a)) -> Stable (bind m f).
Proof.
  intros Hm Hf wd wd' r. unfold bind.
  destruct (m wd) as [wd1 [a | e]] eqn:E.
  - intros Hrun. destruct (Hm _ _ _ E) as [T1 K1].
    destruct (Hf a _ _ _ Hrun) as [T2 K2].
    split; [congruence | eapply programsKept_trans; eassumption].
  - intros [= <- _]. exact (Hm _ _ _ E).
Qed.

Lemma Stable_glCall (g : GLContext -> GLContext) :
  (forall c, programsKept c (g c)) -> Stable (glCall g).
Proof.
  intros Hg wd wd' r [= <- _]. destruct wd. split; [reflexivity | apply Hg].
Qed.

Lemma Stable_getGL : Stable getGL.
Proof.
  intros wd wd' r [= <- _]. split; [reflexivity | apply programsKept_refl].
Qed.

Lemma Stable_getThis : Stable getThis.
Proof.
  intros wd wd' r [= <- _]. split; [reflexivity | apply programsKept_refl].
Qed.

Lemma Stable_getGlobalTexture : Stable getGlobalTexture.
Proof.
  intros wd wd' r [= <- _]. split; [reflexivity | apply programsKept_refl].
Qed.

Create HintDb stable.

#[local] Hint Resolve Stable_ret Stable_throw Stable_deref Stable_getGL
  Stable_getThis Stable_getGlobalTexture gl_uniform_kept programsKept_refl
  : stable.

Ltac stable :=
  repeat first
    [ apply Stable_bind; [|intros ?]
    | apply Stable_glCall; intros ?;
      first [ apply gl_uniform_kept
            | apply programsKept_same; reflexivity ]
    | solve [auto with stable] ].

Lemma onload_Stable (img : Image) : Stable (onload img).
Proof.
  unfold onload, ShaderProgram_setUniformInt, ShaderProgram_setUniformFloat.
  stable.
Qed.

Lemma imageLoaded_Stable (t : Handle) (imageWidth imageHeight : Z) :
  Stable (imageLoaded t imageWidth imageHeight).
Proof.
  unfold imageLoaded. apply Stable_bind; [apply Stable_getGL|]. intros c.
  destruct (lookupN t (textureObjects c)) as [[[img|] l]|];
    try apply Stable_ret.
  apply Stable_bind; [|intros ?; apply onload_Stable]. stable.
Qed.

(** A finished image load leaves the renderer initialised. *)
Lemma imageLoaded_initialised (t : Handle) (imageWidth imageHeight : Z)
    (wd wd' : World) (r : Completion unit) (x : Parts) :
  Initialised wd x ->
  imageLoaded t imageWidth imageHeight wd = (wd', r) ->
  Initialised wd' x.
Proof.
  intros (Hthis & [(po1 & L1 & U1) R1] & [(po2 & L2 & U2) R2] & Hne) Hrun.
  destruct (imageLoaded_Stable _ _ _ _ _ _ Hrun) as [T K].
  destruct (K _ _ L1) as (po1' & L1' & U1').
  destruct (K _ _ L2) as (po2' & L2' & U2').
  split; [congruence|]. split; [|split].
  - eapply linkedWith_stored; [exact L1' | congruence | exact R1].
  - eapply linkedWith_stored; [exact L2' | congruence | exact R2].
  - exact Hne.
Qed.

(** [update] only moves the camera angle. *)
Lemma update_initialised (elapsed : Q) (wd : World) (x : Parts) :
  Initialised wd x ->
  exists wd' : World,
    update elapsed wd = (wd', Normal tt) /\
    Initialised wd'
      {| the_canvas := the_canvas x;
         the_anim := {| angle := angle (the_anim x) + elapsed / 1000 |};
         the_exitpoints := the_exitpoints x;
         the_entrypoints := the_entrypoints x;
         the_volume_texture := the_volume_texture x;
         the_entryExitPoints := the_entryExitPoints x;
         the_volume := the_volume x;
         the_domainCube := the_domainCube x;
         the_viewportQuad := the_viewportQuad x |}.
Proof.
  intros (Hthis & H1 & H2 & Hne).
  destruct wd as [c r tx al ce]. cbn [this context] in *. subst r.
  unfold update. rewrite bind_getThis. cbn [this rendererOf anim].
  rewrite bind_deref. eexists. split; [reflexivity|].
  split; [reflexivity|]. exact (conj H1 (conj H2 Hne)).
Qed.

(** *** The domain cube and the slice size *)

Lemma initVolumeGeometry_run (volumeTexture : string)
    (sliceWidth sliceHeight slices slicesPerRow : Z) (wd : World) :
  gl (this wd) = Some TheContext ->
  exists (wd' : World) (dc : VolumeCubeDomain) (t : Handle),
    initVolumeGeometry volumeTexture sliceWidth sliceHeight slices
      slicesPerRow wd = (wd', Normal tt) /\
    domainCube (this wd') = Some dc /\
    JS.sliceWidth dc = sliceWidth /\ JS.sliceHeight dc = sliceHeight /\
    JS.slices dc = slices /\ JS.slicesPerRow dc = slicesPerRow /\
    cubeDimensions dc =
      {| w := 1; h := inject_Z sliceHeight / inject_Z sliceWidth;
         d := inject_Z slices / inject_Z sliceWidth |} /\
    texture wd' = Some t /\
    volume_texture (textures (this wd')) = Some t /\
    lookupN t (textureObjects (context wd')) =
      Some {| image :=
                Some {| src := Some volumeTexture;
                        onload_slices := slices;
                        onload_slicesPerRow := slicesPerRow;
                        onload_sliceWidth := sliceWidth;
                        onload_sliceHeight := sliceHeight;
                        width := 0; height := 0 |};
              isLoaded := false |}.
Proof.
  intros Hgl. destruct wd as [c r tx al ce]. cbn [this] in Hgl.
  unfold initVolumeGeometry, new_VolumeCubeDomain, createTexture.
  js_step. rewrite Hgl. repeat js_step.
  unfold updThis; js_simpl.
  do 3 eexists. split; [reflexivity|].
  cbn [this context texture domainCube textures volume_texture
       set_domainCube set_textures textureObjects JS.sliceWidth
       JS.sliceHeight JS.slices JS.slicesPerRow cubeDimensions].
  repeat split. apply lookupN_storeN_same.
Qed.

(** C7: for positive slice sizes and slice count the domain cube that
    [initVolumeGeometry] builds has extents (1, sliceHeight / sliceWidth,
    slices / sliceWidth); for the 128 x 128 x 114 volume of the page these
    are (1, 1, 0.890625); and when the atlas image has loaded, with
    [imageWidth] x [imageHeight] pixels, the volume program gets
    [uSliceWidth = sliceWidth / imageWidth] and
    [uSliceHeight = sliceHeight / imageHeight]. *)
Theorem cube_extents_and_slice_size
    (sliceWidth sliceHeight slices slicesPerRow : Z) :
  (0 < sliceWidth)%Z -> (0 < sliceHeight)%Z -> (0 < slices)%Z ->
  (forall (volumeTexture : string) (wd : World),
     gl (this wd) = Some TheContext ->
     exists (wd' : World) (dc : VolumeCubeDomain) (t : Handle)
            (img : Image),
       initVolumeGeometry volumeTexture sliceWidth sliceHeight slices
         slicesPerRow wd = (wd', Normal tt) /\
       domainCube (this wd') = Some dc /\
       cubeDimensions dc =
         {| w := 1; h := inject_Z sliceHeight / inject_Z sliceWidth;
            d := inject_Z slices / inject_Z sliceWidth |} /\
       texture wd' = Some t /\
       lookupN t (textureObjects (context wd')) =
         Some {| image := Some img; isLoaded := false |} /\
       onload_sliceWidth img = sliceWidth /\
       onload_sliceHeight img = sliceHeight) /\
  (exists dc : VolumeCubeDomain,
     domainCube (this pageAfterInit) = Some dc /\
     w (cubeDimensions dc) == 1 /\ h (cubeDimensions dc) == 1 /\
     d (cubeDimensions dc) == 0.890625) /\
  (forall (wd : World) (x : Parts) (t : Handle) (img : Image) (l : bool)
          (imageWidth imageHeight : Z),
     Initialised wd x ->
     currentProgram (context wd) = Some (program (the_volume x)) ->
     texture wd = Some t ->
     lookupN t (textureObjects (context wd)) =
       Some {| image := Some img; isLoaded := l |} ->
     onload_sliceWidth img = sliceWidth ->
     onload_sliceHeight img = sliceHeight ->
     exists wd' : World,
       imageLoaded t imageWidth imageHeight wd = (wd', Normal tt) /\
       lookupS "uSliceWidth" (uniformsOf (context wd') (the_volume x)) =
         Some (UFloat (inject_Z sliceWidth / inject_Z imageWidth)) /\
       lookupS "uSliceHeight" (uniformsOf (context wd') (the_volume x)) =
         Some (UFloat (inject_Z sliceHeight / inject_Z imageHeight))).
Proof.
  intros Hw Hh Hs. split; [|split].
  - intros volumeTexture wd Hgl.
    destruct (initVolumeGeometry_run volumeTexture sliceWidth sliceHeight
                slices slicesPerRow wd Hgl)
      as (wd' & dc & t & Hrun & Hdc & _ & _ & _ & _ & Hdim & Ht & _ & Himg).
    exists wd', dc, t. eexists.
    exact (conj Hrun (conj Hdc (conj Hdim (conj Ht
             (conj Himg (conj eq_refl eq_refl)))))).
  - eexists. split; [vm_compute; reflexivity|].
    cbn [cubeDimensions w h d]. repeat split; reflexivity.
  - intros wd x t img l iw ih
      (Hthis & _ & [(po2 & L2 & U2) R2] & _) Hcur Htex Hobj Hsw Hsh.
    destruct wd as [c r tx al ce]. cbn [this context texture] in *.
    subst r tx.
    destruct x as [cv a f1 f2 t' p1 p2 dc q]. cbn [the_volume] in *.
    destruct p2 as [vs2 fs2 h2 at2 un2]. cbn [uniforms program] in *.
    subst un2.
    destruct c as [vw vh nh progs texs cp fbb atu tb dt df cd cc ev].
    cbn [programs currentProgram textureObjects] in *. subst cp.
    unfold imageLoaded, uniformsOf. js_step. rewrite Hobj. cbv iota beta.
    unfold onload, ShaderProgram_setUniformInt,
      ShaderProgram_setUniformFloat.
    repeat js_step. unfold glCall; js_simpl; js_gl; js_simpl.
    eexists. split; [reflexivity|]. cbn [context programs program].
    rewrite lookupN_storeN_same. cbn [po_uniforms width height].
    rewrite Hsw, Hsh. split.
    + rewrite lookupS_storeS_other by reflexivity.
      apply lookupS_storeS_same.
    + apply lookupS_storeS_same.
Qed.

Lemma page_first_frame_initialised : Initialised pageAfterFirstFrame pageParts.
Proof.
  split; [vm_compute; reflexivity|]. split; [|split].
  - split; [|reflexivity]. eexists. split; vm_compute; reflexivity.
  - split; [|reflexivity]. eexists. split; vm_compute; reflexivity.
  - cbn. discriminate.
Qed.

(** The atlas of the page, 11 x 11 tiles of 128 x 128 pixels, has loaded
    after the first frame. *)
Lemma cube_extents_and_slice_size_demo :
  exists wd' : World,
    imageLoaded 11%nat 1408 1408 pageAfterFirstFrame = (wd', Normal tt) /\
    lookupS "uSliceWidth" (uniformsOf (context wd') (the_volume pageParts)) =
      Some (UFloat (inject_Z 128 / inject_Z 1408)) /\
    lookupS "uSliceHeight" (uniformsOf (context wd') (the_volume pageParts)) =
      Some (UFloat (inject_Z 128 / inject_Z 1408)).
Proof.
  assert (H128 : (0 < 128)%Z) by reflexivity.
  assert (H114 : (0 < 114)%Z) by reflexivity.
  destruct (cube_extents_and_slice_size 128 128 114 11 H128 H128 H114)
    as (_ & _ & Hload).
  eapply Hload.
  - exact page_first_frame_initialised.
  - vm_compute; reflexivity.
  - vm_compute; reflexivity.
  - vm_compute; reflexivity.
  - reflexivity.
  - reflexivity.
Defined.

(** *** Failures during initialisation *)

(** C8 on the code: when the volume program fails to link, [initGL] shows
    the alert, deletes the program, and still returns [true] with the
    context kept and nothing logged with [console.error]; the renderer then
    holds a volume [ShaderProgram] whose program cannot be used.  When a
    shader fails to compile, [initGL] returns [false] only if the binding
    throws on the [null] shader passed to [attachShader]; where it does not,
    [initGL] returns [true] as well. *)
Theorem initGL_shader_failure (strictBindings : bool) :
  let linkFailure :=
    initGL true true (fun _ => true) volumeLinkFails strictBindings
      pageCanvas startWorld in
  let compileFailure :=
    initGL true true volumeCompileFails (fun _ _ => true) strictBindings
      pageCanvas startWorld in
  (snd linkFailure = Normal true /\
   gl (this (fst linkFailure)) = Some TheContext /\
   alerts (fst linkFailure) = ["Error in program linking:"] /\
   consoleErrors (fst linkFailure) = [] /\
   exists (p : ShaderProgram) (po : ProgramObject),
     volume (shaders (this (fst linkFailure))) = Some p /\
     lookupN (program p) (programs (context (fst linkFailure))) = Some po /\
     usable po = false) /\
  snd compileFailure = Normal (negb strictBindings) /\
  gl (this (fst compileFailure)) =
    (if strictBindings then None else Some TheContext).
Proof.
  intros linkFailure compileFailure.
  destruct strictBindings.
  - split; [|split]; [|vm_compute; reflexivity..].
    split; [vm_compute; reflexivity|]. split; [vm_compute; reflexivity|].
    split; [vm_compute; reflexivity|]. split; [vm_compute; reflexivity|].
    do 2 eexists.
    split; [vm_compute; reflexivity|]. split; vm_compute; reflexivity.
  - split; [|split]; [|vm_compute; reflexivity..].
    split; [vm_compute; reflexivity|]. split; [vm_compute; reflexivity|].
    split; [vm_compute; reflexivity|]. split; [vm_compute; reflexivity|].
    do 2 eexists.
    split; [vm_compute; reflexivity|]. split; vm_compute; reflexivity.
Qed.

(** *** Construction of the domain *)

(** C9 (as the code is written): [initVolumeGeometry] checks nothing about
    its parameters.  Without a context it returns at once; with one it
    always completes, and the renderer then holds a domain cube that stores
    the slice width, slice height, slice count and slices per row exactly as
    given, whatever they are. *)
Theorem initVolumeGeometry_accepts_any_parameters (volumeTexture : string)
    (sliceWidth sliceHeight slices slicesPerRow : Z) (wd : World) :
  (gl (this wd) = None ->
   initVolumeGeometry volumeTexture sliceWidth sliceHeight slices
     slicesPerRow wd = (wd, Normal tt)) /\
  (gl (this wd) = Some TheContext ->
   exists (wd' : World) (dc : VolumeCubeDomain),
     initVolumeGeometry volumeTexture sliceWidth sliceHeight slices
       slicesPerRow wd = (wd', Normal tt) /\
     domainCube (this wd') = Some dc /\
     JS.sliceWidth dc = sliceWidth /\ JS.sliceHeight dc = sliceHeight /\
     JS.slices dc = slices /\ JS.slicesPerRow dc = slicesPerRow).
Proof.
  split.
  - intros Hgl. unfold initVolumeGeometry. rewrite bind_getThis.
    now rewrite Hgl.
  - intros Hgl.
    destruct (initVolumeGeometry_run volumeTexture sliceWidth sliceHeight
                slices slicesPerRow wd Hgl)
      as (wd' & dc & t & Hrun & Hdc & H1 & H2 & H3 & H4 & _).
    exists wd', dc. repeat split; assumption.
Qed.

Lemma initVolumeGeometry_accepts_any_parameters_demo :
  exists (wd' : World) (dc : VolumeCubeDomain),
    initVolumeGeometry "tex.png" 128 128 114 11 pageAfterInitGL =
      (wd', Normal tt) /\
    domainCube (this wd') = Some dc /\
    JS.sliceWidth dc = 128%Z /\ JS.sliceHeight dc = 128%Z /\
    JS.slices dc = 114%Z /\ JS.slicesPerRow dc = 11%Z.
Proof.
  apply (proj2 (initVolumeGeometry_accepts_any_parameters
                  "tex.png" 128 128 114 11 pageAfterInitGL)).
  vm_compute. reflexivity.
Defined.

(** C9, as stated, fails: one slice and zero slices per row are taken like
    any other values, and the renderer gets its domain cube. *)
Lemma degenerate_parameters_not_refused :
  ~ guardsDegenerate 128 128 1 0 pageAfterInitGL.
Proof.
  unfold guardsDegenerate. intros H.
  assert (Hdeg : (1 <= 1 \/ 0 <= 0)%Z) by (left; reflexivity).
  specialize (H Hdeg). vm_compute in H. discriminate H.
Qed.

End RendererProps.

(** ** More on the shaders *)

Module ShaderExtras.
Import GLSL RFloor ShaderProps Shaders.
Local Open Scope R_scope.

(** *** Sampling *)


(** X2: with one slice ([uNumSlices = 1]) every position samples slice 0,
    whatever its z: the slice coordinate is [pos.z * 0]. *)
Theorem sampleVolume_single_slice
    (uVolumeTexture : sampler2D) (uSlicesPerRow : Z)
    (uSliceWidth uSliceHeight : R) (pos : vec3) :
  sampleVolume uVolumeTexture 1 uSlicesPerRow uSliceWidth uSliceHeight pos =
  sliceSample uVolumeTexture uSlicesPerRow uSliceWidth uSliceHeight 0 pos.
Proof.
  rewrite sampleVolume_unfold. cbv zeta. unfold float.
  replace (z3 pos * IZR (1 - 1)) with (IZR 0) by (cbn; lra).
  rewrite floor_IZR, ceil_IZR.
  destruct (Req_dec_T (IZR 0) (IZR 0)) as [_ | N]; [reflexivity|].
  now contradiction N.
Qed.

(** X3: two different slices never share a tile of the atlas. *)
Theorem tileOrigin_distinct (uSlicesPerRow j k : Z) :
  (0 < uSlicesPerRow)%Z -> (0 <= j)%Z -> (0 <= k)%Z -> j <> k ->
  tileOrigin uSlicesPerRow (IZR j) <> tileOrigin uSlicesPerRow (IZR k).
Proof.
  intros Hspr Hj Hk Hne E. apply Hne.
  rewrite !tileOrigin_IZR in E by assumption.
  injection E as Ec Er. apply eq_IZR in Ec. apply eq_IZR in Er.
  rewrite (Z.div_mod j uSlicesPerRow), (Z.div_mod k uSlicesPerRow) by lia.
  now rewrite Ec, Er.
Qed.

Lemma tileOrigin_distinct_demo :
  tileOrigin 11 (IZR 0) <> tileOrigin 11 (IZR 11).
Proof.
  apply tileOrigin_distinct; lia.
Defined.

(** X4: for a slice index in range and [pos.xy] in [0,1]^2 the texture
    coordinate [sampleVolume] fetches stays inside the tile of the slice,
    column [index mod slicesPerRow] and row [index / slicesPerRow], and so
    inside the grid of [slicesPerRow] columns and
    [ceil(numSlices / slicesPerRow)] rows. *)
Theorem slice_uv_in_tile (uNumSlices uSlicesPerRow index : Z)
    (uSliceWidth uSliceHeight : R) (pos : vec3) :
  (0 < uSlicesPerRow)%Z -> (0 <= index < uNumSlices)%Z ->
  0 <= x3 pos <= 1 -> 0 <= y3 pos <= 1 ->
  0 <= uSliceWidth -> 0 <= uSliceHeight ->
  let uv :=
    mul2 (add2 (tileOrigin uSlicesPerRow (IZR index)) (xy pos))
         (Vec2 uSliceWidth uSliceHeight) in
  let column := IZR (index mod uSlicesPerRow) in
  let row := IZR (index / uSlicesPerRow) in
  column * uSliceWidth <= x2 uv <= (column + 1) * uSliceWidth /\
  row * uSliceHeight <= y2 uv <= (row + 1) * uSliceHeight /\
  0 <= x2 uv <= IZR uSlicesPerRow * uSliceWidth /\
  0 <= y2 uv <= IZR (atlasRows uNumSlices uSlicesPerRow) * uSliceHeight.
Proof.
  intros Hspr Hi Hx Hy Hw Hh uv column row.
  pose proof (tileOrigin_in_grid uNumSlices uSlicesPerRow index Hspr Hi)
    as [[G1 G2] [G3 G4]].
  unfold uv. rewrite tileOrigin_IZR in * by lia.
  cbn [mul2 add2 xy x2 y2] in *. fold column row in G1, G2, G3, G4 |- *.
  assert (Hc : column + 1 <= IZR uSlicesPerRow).
  { unfold column. rewrite <- plus_IZR. apply IZR_le.
    pose proof (Z.mod_pos_bound index uSlicesPerRow Hspr). lia. }
  assert (Hr : row + 1 <= IZR (atlasRows uNumSlices uSlicesPerRow)).
  { unfold row. rewrite <- plus_IZR. apply IZR_le.
    pose proof (ceil_div_gt uNumSlices uSlicesPerRow index Hspr Hi).
    unfold atlasRows. lia. }
  clearbody column row.
  generalize dependent (IZR (atlasRows uNumSlices uSlicesPerRow)).
  generalize dependent (IZR uSlicesPerRow). intros.
  repeat split; nra.
Qed.

Lemma slice_uv_in_tile_demo :
  let uv := mul2 (add2 (tileOrigin 11 (IZR 113)) (xy (Vec3 0.5 0.5 1)))
                 (Vec2 (1 / 11) (1 / 11)) in
  0 <= x2 uv <= IZR 11 * (1 / 11) /\
  0 <= y2 uv <= IZR (atlasRows 114 11) * (1 / 11).
Proof.
  refine (proj2 (proj2
            (slice_uv_in_tile 114 11 113 (1 / 11) (1 / 11) (Vec3 0.5 0.5 1)
               _ _ _ _ _ _))); cbn; first [lia | lra].
Defined.

(** *** The ray integrator *)

Section Ray.

Variable uVolumeTexture : sampler2D.
Variables uNumSlices uSlicesPerRow : Z.
Variables uSliceWidth uSliceHeight : R.
Variables entryPoint exitPoint : vec3.

Let vector := normalize (sub3 exitPoint entryPoint).
Let thickness := length3 (sub3 exitPoint entryPoint).
Let state :=
  integrateTrace uVolumeTexture uNumSlices uSlicesPerRow uSliceWidth
    uSliceHeight entryPoint exitPoint.
Let iter :=
  loopIter uVolumeTexture uNumSlices uSlicesPerRow uSliceWidth uSliceHeight
    entryPoint vector thickness.
Let sampleAt (d : R) :=
  sampleVolume uVolumeTexture uNumSlices uSlicesPerRow uSliceWidth
    uSliceHeight (add3 entryPoint (mul3 vector (splat3 d))).

(** The state after one more turn. *)
Lemma state_next (k : nat) :
  state (S k) =
  match iter (state k) with
  | Some _ =>
      {| i := i (state k) + 1; depth := depth (state k) + step;
         color := composite (sampleAt (depth (state k))) (color (state k)) |}
  | None => state k
  end.
Proof.
  unfold state, integrateTrace. rewrite run_succ.
  fold vector thickness. fold iter.
  change (loopRun uVolumeTexture uNumSlices uSlicesPerRow uSliceWidth
            uSliceHeight entryPoint vector thickness k loopStart)
    with (state k).
  destruct (iter (state k)) as [st'|] eqn:E; [|reflexivity].
  apply iter_Some in E. now destruct E as (_ & _ & _ & ->).
Qed.

Lemma depth_counts_steps (k : nat) :
  depth (state k) = IZR (i (state k)) * step /\
  ((i (state k) = 0)%Z \/
   (1 <= i (state k))%Z /\ (IZR (i (state k)) - 1) * step <= thickness).
Proof.
  induction k as [|k [IHd IHi]].
  - cbn. split; [lra | now left].
  - rewrite state_next. destruct (iter (state k)) as [st'|] eqn:E.
    + apply iter_Some in E. destruct E as (Hi & Hd & _ & _).
      cbn [depth i]. rewrite plus_IZR. split; [lra|]. right.
      assert (0 <= i (state k))%Z by (destruct IHi; lia).
      split; [lia|]. rewrite IHd in Hd. lra.
    + split; assumption.
Qed.

End Ray.

(** *** How opaque a ray can get *)

Lemma powf_le_base (x : R) : 0 <= x <= 1 -> powf x 1.1 <= x.
Proof.
  intros Hx. unfold powf. destruct (Rlt_dec 0 x) as [Hpos | Hnp]; [|lra].
  unfold Rpower. rewrite <- (exp_ln x) at 2 by exact Hpos.
  destruct (Req_dec_T x 1) as [-> | Hne].
  - rewrite ln_1, Rmult_0_r. lra.
  - left. apply exp_increasing.
    assert (ln x < 0) by (rewrite <- ln_1; apply ln_increasing; lra).
    lra.
Qed.

(** One step through a sample in [0,1] closes less than 0.4 of what is
    still transparent: [1 - exp(-0.01 * 1 * 40) <= 0.4]. *)
Lemma tfOpacity_le (sample : R) :
  0 <= sample <= 1 -> 0 <= tfOpacity sample <= 0.4.
Proof.
  intros Hs. pose proof (tfAbsorbtion_nonneg sample) as H0.
  assert (H1 : tfAbsorbtion sample <= 1).
  { unfold tfAbsorbtion. destruct (Rltb (powf sample 1.1) 0.05); [lra|].
    pose proof (powf_le_base sample Hs). lra. }
  unfold tfOpacity, step.
  pose proof (exp_ineq1_le (- (0.01) * tfAbsorbtion sample * 40)) as He.
  destruct (exp_nonpos_le_1 (- (0.01) * tfAbsorbtion sample * 40)) as [_ E1];
    [lra|].
  generalize dependent (exp (- (0.01) * tfAbsorbtion sample * 40)).
  intros e He E1. lra.
Qed.

(** X5: with texels in [0,1] and a ray of positive thickness the
    accumulated alpha never exceeds 0.99, at any turn and in the value
    [integrateVolume] returns: a turn is only taken at an alpha of at most
    0.98, and one turn closes at most [1 - exp(-0.4) < 0.4] of the remaining
    transparency.  A fully opaque color is never returned. *)
Theorem alpha_overshoot_bounded
    (uVolumeTexture : sampler2D) (uNumSlices uSlicesPerRow : Z)
    (uSliceWidth uSliceHeight : R) (entryPoint exitPoint : vec3) :
  (forall uv, 0 <= r4 (texture2D uVolumeTexture uv) <= 1) ->
  0 < length3 (sub3 exitPoint entryPoint) ->
  (forall n : nat,
     a4 (color (integrateTrace uVolumeTexture uNumSlices uSlicesPerRow
                  uSliceWidth uSliceHeight entryPoint exitPoint n)) <= 0.99) /\
  a4 (integrateVolume uVolumeTexture uNumSlices uSlicesPerRow uSliceWidth
        uSliceHeight entryPoint exitPoint) <= 0.99.
Proof.
  intros Htex _.
  assert (H : forall n : nat,
     a4 (color (integrateTrace uVolumeTexture uNumSlices uSlicesPerRow
                  uSliceWidth uSliceHeight entryPoint exitPoint n)) <= 0.99).
  { induction n as [|n IH]; [cbn; lra|].
    rewrite state_next.
    destruct (loopIter _ _ _ _ _ _ _ _ _) as [st'|] eqn:E; [|exact IH].
    apply iter_Some in E. destruct E as (_ & _ & Ha & _).
    cbn [color]. rewrite composite_alpha.
    match goal with
    | |- tfOpacity ?sample * _ + _ <= _ =>
        pose proof (tfOpacity_le sample
                      (sampleVolume_range _ _ _ _ _ _ Htex)) as Ht;
        generalize dependent (tfOpacity sample)
    end.
    intros t Ht. nra. }
  split; [exact H|]. rewrite integrateVolume_trace. apply H.
Qed.

Lemma alpha_overshoot_bounded_demo :
  a4 (integrateVolume MidpointScene.atlas 2 2 0.5 1 (Vec3 0.5 0.5 0)
        (Vec3 0.5 0.5 1)) <= 0.99.
Proof.
  refine (proj2 (alpha_overshoot_bounded MidpointScene.atlas 2 2 0.5 1
                   (Vec3 0.5 0.5 0) (Vec3 0.5 0.5 1) _ _)).
  - intros uv. unfold texture2D, MidpointScene.atlas.
    destruct (Rlt_dec (x2 uv) 0.5); cbn; lra.
  - unfold length3, sub3. cbn [x3 y3 z3]. apply sqrt_lt_R0. lra.
Defined.

(** *** Colors *)

Lemma sampleColor_range (sample : R) :
  0 <= sample <= 1 ->
  0 <= x3 (sampleColor sample) <= 1 /\ 0 <= y3 (sampleColor sample) <= 1 /\
  0 <= z3 (sampleColor sample) <= 1.
Proof.
  intros Hs. unfold sampleColor, splat3.
  destruct (Rgtb sample 0.35) eqn:E; cbn [x3 y3 z3].
  - repeat split; lra.
  - apply Rgtb_false in E. repeat split; lra.
Qed.

Lemma composite_premultiplied (sample : R) (c : vec4) :
  0 <= sample <= 1 -> premultiplied c -> premultiplied (composite sample c).
Proof.
  intros Hs (Hr & Hg & Hb & Ha).
  pose proof (sampleColor_range sample Hs) as (Sr & Sg & Sb).
  pose proof (tfOpacity_range sample) as Ht.
  unfold premultiplied, composite.
  cbn [r4 g4 b4 a4 x3 y3 z3 add3 mul3 splat3 rgb].
  generalize dependent (x3 (sampleColor sample)).
  generalize dependent (y3 (sampleColor sample)).
  generalize dependent (z3 (sampleColor sample)).
  generalize dependent (tfOpacity sample).
  intros t Ht sb Sb sg Sg sr Sr.
  assert (0 <= t * (1 - a4 c)) by nra.
  repeat split; nra.
Qed.

(** X6: with texels in [0,1] and a ray of positive thickness the
    accumulated color is premultiplied at every turn and in the result: each
    of r, g, b lies between 0 and the accumulated alpha.  (For
    [entryPoint = exitPoint] the direction [normalize(vec3(0))] is undefined
    in GLSL, and nothing is said.) *)
Theorem accumulated_color_premultiplied
    (uVolumeTexture : sampler2D) (uNumSlices uSlicesPerRow : Z)
    (uSliceWidth uSliceHeight : R) (entryPoint exitPoint : vec3) :
  (forall uv, 0 <= r4 (texture2D uVolumeTexture uv) <= 1) ->
  0 < length3 (sub3 exitPoint entryPoint) ->
  (forall n : nat,
     premultiplied
       (color (integrateTrace uVolumeTexture uNumSlices uSlicesPerRow
                 uSliceWidth uSliceHeight entryPoint exitPoint n))) /\
  premultiplied
    (integrateVolume uVolumeTexture uNumSlices uSlicesPerRow uSliceWidth
       uSliceHeight entryPoint exitPoint).
Proof.
  intros Htex _.
  assert (H : forall n : nat,
     premultiplied
       (color (integrateTrace uVolumeTexture uNumSlices uSlicesPerRow
                 uSliceWidth uSliceHeight entryPoint exitPoint n))).
  { induction n as [|n IH].
    - cbn. unfold premultiplied; cbn. repeat split; lra.
    - rewrite state_next.
      destruct (loopIter _ _ _ _ _ _ _ _ _); [|exact IH].
      cbn [color]. apply composite_premultiplied; [|exact IH].
      now apply sampleVolume_range. }
  split; [exact H|]. rewrite integrateVolume_trace. apply H.
Qed.

Lemma accumulated_color_premultiplied_demo :
  premultiplied
    (integrateVolume MidpointScene.atlas 2 2 0.5 1 (Vec3 0.5 0.5 0)
       (Vec3 0.5 0.5 1)).
Proof.
  refine (proj2 (accumulated_color_premultiplied MidpointScene.atlas 2 2 0.5 1
                   (Vec3 0.5 0.5 0) (Vec3 0.5 0.5 1) _ _)).
  - intros uv. unfold texture2D, MidpointScene.atlas.
    destruct (Rlt_dec (x2 uv) 0.5); cbn; lra.
  - unfold length3, sub3. cbn [x3 y3 z3]. apply sqrt_lt_R0. lra.
Defined.

(** *** How far a ray is followed *)

Lemma unit_cube_thickness (entryPoint exitPoint : vec3) :
  inUnitCube entryPoint -> inUnitCube exitPoint ->
  length3 (sub3 exitPoint entryPoint) < 1.74.
Proof.
  intros (Ex & Ey & Ez) (Xx & Xy & Xz). unfold length3, sub3; cbn [x3 y3 z3].
  apply Rle_lt_trans with (sqrt 3).
  - apply sqrt_le_1_alt. nra.
  - rewrite <- (sqrt_square 1.74) by lra. apply sqrt_lt_1_alt. lra.
Qed.

(** In the model, where depth is an exact multiple of the step, a ray
    inside the unit cube is followed for at most 174 turns. *)
Lemma unit_cube_turns
    (uVolumeTexture : sampler2D) (uNumSlices uSlicesPerRow : Z)
    (uSliceWidth uSliceHeight : R) (entryPoint exitPoint : vec3) (n : nat) :
  inUnitCube entryPoint -> inUnitCube exitPoint ->
  (0 <= i (integrateTrace uVolumeTexture uNumSlices uSlicesPerRow uSliceWidth
             uSliceHeight entryPoint exitPoint n) <= 174)%Z.
Proof.
  intros He Hx.
  pose proof (unit_cube_thickness entryPoint exitPoint He Hx) as Ht.
  pose proof (depth_counts_steps uVolumeTexture uNumSlices uSlicesPerRow
                uSliceWidth uSliceHeight entryPoint exitPoint n) as [Hd Hi].
  unfold step in Hd, Hi.
  generalize dependent (length3 (sub3 exitPoint entryPoint)). intros th Ht Hi.
  generalize dependent
    (integrateTrace uVolumeTexture uNumSlices uSlicesPerRow uSliceWidth
       uSliceHeight entryPoint exitPoint n).
  intros st Hd Hi.
  destruct Hi as [Hi | [Hi Hb]]; [lia|].
  split; [lia|].
  assert (H : IZR (i st) < IZR 175) by lra.
  apply lt_IZR in H. lia.
Qed.

(** X7: for entry and exit points in the unit cube the loop is never ended
    by its bound of 10000 iterations: it is left by the [break], with the
    depth beyond the thickness of the ray or the alpha above 0.98, and what
    [integrateVolume] returns is the accumulator at that moment. *)
Theorem unit_cube_ray_ends_by_break
    (uVolumeTexture : sampler2D) (uNumSlices uSlicesPerRow : Z)
    (uSliceWidth uSliceHeight : R) (entryPoint exitPoint : vec3) :
  inUnitCube entryPoint -> inUnitCube exitPoint ->
  exists st : LoopState,
    st = integrateTrace uVolumeTexture uNumSlices uSlicesPerRow uSliceWidth
           uSliceHeight entryPoint exitPoint (Z.to_nat 10000) /\
    (i st < 10000)%Z /\
    (depth st > length3 (sub3 exitPoint entryPoint) \/ a4 (color st) > 0.98) /\
    integrateVolume uVolumeTexture uNumSlices uSlicesPerRow uSliceWidth
      uSliceHeight entryPoint exitPoint = color st.
Proof.
  intros He Hx. eexists. split; [reflexivity|].
  pose proof (unit_cube_turns uVolumeTexture uNumSlices uSlicesPerRow
                uSliceWidth uSliceHeight entryPoint exitPoint
                (Z.to_nat 10000) He Hx) as Hi.
  pose proof (run_terminates uVolumeTexture uNumSlices uSlicesPerRow
                uSliceWidth uSliceHeight entryPoint
                (normalize (sub3 exitPoint entryPoint))
                (length3 (sub3 exitPoint entryPoint)) loopStart
                ltac:(cbn; lia)) as Hend.
  apply iter_None in Hend. rewrite integrateVolume_trace.
  unfold integrateTrace in *.
  generalize dependent
    (loopRun uVolumeTexture uNumSlices uSlicesPerRow uSliceWidth uSliceHeight
       entryPoint (normalize (sub3 exitPoint entryPoint))
       (length3 (sub3 exitPoint entryPoint)) (Z.to_nat 10000) loopStart).
  intros st Hi Hend. split; [lia|]. split; [|reflexivity].
  destruct Hend as [Hend | Hend]; [lia | exact Hend].
Qed.

Lemma unit_cube_ray_ends_by_break_demo :
  exists st : LoopState,
    st = ThresholdScene.state (Z.to_nat 10000) /\
    (i st < 10000)%Z /\
    (depth st > length3 (sub3 ThresholdScene.exitPoint
                           ThresholdScene.entryPoint)
     \/ a4 (color st) > 0.98) /\
    ThresholdScene.result = color st.
Proof.
  apply (unit_cube_ray_ends_by_break
           (ThresholdScene.constantVolume ThresholdScene.texel) 10 10 0.1 1
           ThresholdScene.entryPoint ThresholdScene.exitPoint);
    unfold inUnitCube; cbn; lra.
Defined.

(** *** A volume below the cutoff *)

Lemma composite_clear (sample : R) (c : vec4) :
  0 <= sample < 0.05 -> composite sample c = c.
Proof.
  intros Hs.
  assert (Ha : tfAbsorbtion sample = 0).
  { unfold tfAbsorbtion.
    destruct (Rltb (powf sample 1.1) 0.05) eqn:E; [reflexivity|].
    apply Rltb_false in E.
    pose proof (powf_le_base sample ltac:(lra)). lra. }
  assert (Ht : tfOpacity sample = 0).
  { unfold tfOpacity. rewrite Ha.
    replace (- step * 0 * 40) with 0 by lra. rewrite exp_0. lra. }
  unfold composite. rewrite Ht. destruct c as [r g b a].
  cbn [rgb add3 mul3 splat3 x3 y3 z3 r4 g4 b4 a4]. f_equal; lra.
Qed.

(** X8: a volume whose texels are all below the cutoff of the transfer
    function (here: in [0, 0.05)) renders fully transparent: along every
    ray of positive thickness nothing is ever composited and
    [integrateVolume] returns (0,0,0,0).  (For [entryPoint = exitPoint] the
    direction [normalize(vec3(0))] is undefined in GLSL, and nothing is
    said.) *)
Theorem faint_volume_is_transparent
    (uVolumeTexture : sampler2D) (uNumSlices uSlicesPerRow : Z)
    (uSliceWidth uSliceHeight : R) (entryPoint exitPoint : vec3) :
  (forall uv, 0 <= r4 (texture2D uVolumeTexture uv) < 0.05) ->
  0 < length3 (sub3 exitPoint entryPoint) ->
  integrateVolume uVolumeTexture uNumSlices uSlicesPerRow uSliceWidth
    uSliceHeight entryPoint exitPoint = Vec4 0 0 0 0.
Proof.
  intros Htex _. rewrite integrateVolume_trace.
  assert (H : forall n : nat,
            color (integrateTrace uVolumeTexture uNumSlices uSlicesPerRow
                     uSliceWidth uSliceHeight entryPoint exitPoint n)
            = Vec4 0 0 0 0).
  { induction n as [|n IH]; [reflexivity|].
    rewrite state_next.
    destruct (loopIter _ _ _ _ _ _ _ _ _); [|exact IH].
    cbn [color]. rewrite composite_clear; [exact IH|].
    match goal with
    | |- 0 <= sampleVolume ?t ?n ?spr ?w ?h ?pos < _ =>
        pose proof (sampleVolume_unfold t n spr w h pos) as Hu;
        cbv zeta in Hu; rewrite Hu; clear Hu;
        set (s := z3 pos * float n)
    end.
    unfold sliceSample.
    match goal with
    | |- context [Req_dec_T ?a ?b] => destruct (Req_dec_T a b) as [E | NE]
    end; [apply Htex|].
    match goal with
    | |- 0 <= r4 (texture2D _ ?u) * _ + r4 (texture2D _ ?v) * _ < _ =>
        pose proof (Htex u); pose proof (Htex v);
        generalize dependent (r4 (texture2D uVolumeTexture u));
        generalize dependent (r4 (texture2D uVolumeTexture v))
    end.
    intros vb Hb va Ha.
    match goal with
    | |- context [ceil ?x] =>
        destruct (ceil_bounds x); generalize dependent (ceil x);
        generalize dependent x
    end.
    intros x c _ Hc1 Hc2. nra. }
  apply H.
Qed.

Lemma faint_volume_is_transparent_demo :
  integrateVolume (ThresholdScene.constantVolume 0) 10 10 0.1 1
    ThresholdScene.entryPoint ThresholdScene.exitPoint = Vec4 0 0 0 0.
Proof.
  apply faint_volume_is_transparent.
  - intros uv. cbn. lra.
  - unfold length3, sub3, ThresholdScene.entryPoint, ThresholdScene.exitPoint.
    cbn [x3 y3 z3]. apply sqrt_lt_R0. lra.
Defined.

(** *** From the geometry passes to the integration pass *)

(** X9: a pixel for which both render targets hold a fragment written by
    [entry-exitpoints-fs] is never taken for a miss: [main] of [volume-fs]
    integrates from the entry position to the exit position.  The positions
    are those of the cube: for a vertex of the cube [-0.5,0.5]^3 the
    fragment color is a point of [0,1]^3 with alpha 1. *)
Theorem covered_pixel_is_integrated
    (uEntryPointsSampler uExitPointsSampler uVolumeTexture : sampler2D)
    (uNumSlices uSlicesPerRow : Z) (uSliceWidth uSliceHeight : R)
    (uModelViewMatrix uProjectionMatrix : mat4)
    (uv : vec2) (front back : vec3) :
  let entry :=
    vObjectspacePos
      (entryExitVertexMain uModelViewMatrix uProjectionMatrix front) in
  let exit :=
    vObjectspacePos
      (entryExitVertexMain uModelViewMatrix uProjectionMatrix back) in
  texture2D uEntryPointsSampler uv = entryExitFragmentMain entry ->
  texture2D uExitPointsSampler uv = entryExitFragmentMain exit ->
  main uEntryPointsSampler uExitPointsSampler uVolumeTexture uNumSlices
    uSlicesPerRow uSliceWidth uSliceHeight uv =
  integrateVolume uVolumeTexture uNumSlices uSlicesPerRow uSliceWidth
    uSliceHeight entry exit /\
  ((-0.5 <= x3 front <= 0.5 /\ -0.5 <= y3 front <= 0.5 /\
    -0.5 <= z3 front <= 0.5) -> inUnitCube entry).
Proof.
  intros entry exit He Hx. split.
  - unfold main. rewrite He, Hx. unfold entryExitFragmentMain, vec4_of.
    cbn [a4]. rewrite (proj2 (Rltb_false 1 0.1)) by lra.
    cbn [orb]. reflexivity.
  - intros (Hx1 & Hy1 & Hz1). unfold entry, inUnitCube. cbn. lra.
Qed.

Lemma covered_pixel_is_integrated_demo :
  let I := Mat4 (Vec4 1 0 0 0) (Vec4 0 1 0 0) (Vec4 0 0 1 0) (Vec4 0 0 0 1) in
  main (fun _ => Vec4 0.5 0.5 0 1) (fun _ => Vec4 0.5 0.5 1 1)
    MidpointScene.atlas 2 2 0.5 1 (Vec2 0.5 0.5) =
  integrateVolume MidpointScene.atlas 2 2 0.5 1
    (vObjectspacePos (entryExitVertexMain I I (Vec3 0 0 (-0.5))))
    (vObjectspacePos (entryExitVertexMain I I (Vec3 0 0 0.5))).
Proof.
  intros I.
  refine (proj1 (covered_pixel_is_integrated _ _ _ _ _ _ _ I I _
                   (Vec3 0 0 (-0.5)) (Vec3 0 0 0.5) _ _)).
  - unfold texture2D, entryExitFragmentMain, vec4_of. cbn. f_equal; lra.
  - unfold texture2D, entryExitFragmentMain, vec4_of. cbn. f_equal; lra.
Defined.



End ShaderExtras.

(** ** More on the renderer *)

Module RendererExtras.
Import JS RendererProps Page.
Local Open Scope string_scope.
Local Open Scope Q_scope.

(** *** The camera *)

(** The geometry passes of a frame, read for the camera: the exit-point
    target is cleared first and the cube drawn into it with the model-view
    matrix of the current angle. *)
Lemma draw_camera (wd : World) (x : Parts) :
  Initialised wd x ->
  exists (wd' : World) (s : Snapshot) (later : list Event),
    let cd := cubeDimensions (the_domainCube x) in
    draw wd = (wd', Normal tt) /\
    this wd' = this wd /\
    events (context wd') =
      (events (context wd) ++
       Clear (Some (fb (the_exitpoints x))) (0, 0, 0, 0) (-1)
       :: Draw TRIANGLES (numItems (cubeIndexBuffer (the_domainCube x))) s
       :: later)%list /\
    lookupS "uModelViewMatrix" (uniform_values s) =
      Some (UMatrix (ModelView (angle (the_anim x)) (w cd) (h cd) (d cd))).
Proof.
  intros (Hthis & [(po1 & L1 & U1) R1] & [(po2 & L2 & U2) R2] & Hne).
  destruct wd as [c r tx al ce]. cbn [this context] in *. subst r.
  destruct x as [cv a f1 f2 t p1 p2 dc q].
  cbn [the_entryExitPoints the_volume] in *.
  destruct p1 as [vs1 fs1 h1 at1 un1], p2 as [vs2 fs2 h2 at2 un2].
  cbn [uniforms program] in *. subst un1 un2.
  destruct c as [vw vh nh progs texs cp fbb atu tb dt df cd cc ev].
  cbn [programs] in *.
  cbn [context this the_entryExitPoints the_volume the_domainCube the_anim
       the_exitpoints the_entrypoints program programs events viewportWidth
       viewportHeight].
  unfold draw, _setMatrices, ShaderProgram_use, FrameBuffer_attach,
    FrameBuffer_detach, FrameBuffer_bindAsTexture,
    ShaderProgram_setUniformMatrix, ShaderProgram_setUniformInt,
    VolumeCubeDomain_render, FullscreenQuad_render.
  repeat js_step.
  destruct (match lookupN t texs with
            | Some o => isLoaded o
            | None => false
            end); repeat js_step; unfold glCall; js_simpl; js_gl; js_simpl.
  - do 3 eexists.
    refine (conj eq_refl (conj eq_refl (conj _ _))).
    + cbn [context events]. rewrite <- !app_assoc. reflexivity.
    + cbn [uniform_values]. apply lookupS_storeS_same.
  - do 3 eexists.
    refine (conj eq_refl (conj eq_refl (conj _ _))).
    + cbn [context events]. rewrite <- !app_assoc. reflexivity.
    + cbn [uniform_values]. apply lookupS_storeS_same.
Qed.

(** X11: what [tick] does between two frames: [update(elapsed)] followed by
    [draw()] on an initialised renderer draws the frame with the camera
    moved on by [elapsed / 1000]: the cube is drawn with the model-view
    matrix of the angle [angle + elapsed / 1000], and in the renderer
    nothing but that angle has changed. *)
Theorem update_turns_camera_of_next_frame (elapsed : Q) (wd : World)
    (x : Parts) :
  Initialised wd x ->
  exists (wd' : World) (s : Snapshot) (later : list Event),
    let cd := cubeDimensions (the_domainCube x) in
    let turned := angle (the_anim x) + elapsed / 1000 in
    (update elapsed ;; draw) wd = (wd', Normal tt) /\
    this wd' = set_anim (Some {| angle := turned |}) (this wd) /\
    events (context wd') =
      (events (context wd) ++
       Clear (Some (fb (the_exitpoints x))) (0, 0, 0, 0) (-1)
       :: Draw TRIANGLES (numItems (cubeIndexBuffer (the_domainCube x))) s
       :: later)%list /\
    lookupS "uModelViewMatrix" (uniform_values s) =
      Some (UMatrix (ModelView turned (w cd) (h cd) (d cd))).
Proof.
  intros Hinit.
  destruct (update_initialised elapsed wd x Hinit) as (wd1 & Eu & Hinit1).
  destruct (draw_camera wd1 _ Hinit1) as (wd2 & s & later & Ed & Ht & Hev & Hmv).
  cbn [the_domainCube the_anim the_exitpoints angle] in Hev, Hmv.
  assert (Hw : context wd1 = context wd /\
               this wd1 = set_anim (Some {| angle := angle (the_anim x)
                                                      + elapsed / 1000 |})
                            (this wd)).
  { destruct Hinit as (Hthis & _). destruct wd as [c r tx al ce].
    cbn [this] in Hthis. subst r. unfold update in Eu.
    rewrite bind_getThis in Eu. cbn [this rendererOf anim] in Eu.
    rewrite bind_deref in Eu. injection Eu as <-. split; reflexivity. }
  destruct Hw as [Hc Hr].
  exists wd2, s, later. cbv zeta.
  split; [unfold bind; now rewrite Eu|].
  split; [now rewrite Ht|]. rewrite <- Hc. split; assumption.
Qed.

Lemma update_turns_camera_of_next_frame_demo :
  exists (wd' : World) (s : Snapshot) (later : list Event),
    (update 16 ;; draw) pageAfterInit = (wd', Normal tt) /\
    this wd' = set_anim (Some {| angle := 0 + 16 / 1000 |})
                 (this pageAfterInit) /\
    events (context wd') =
      (events (context pageAfterInit) ++
       Clear (Some 2%nat) (0, 0, 0, 0) (-1) :: Draw TRIANGLES 36 s :: later)%list /\
    lookupS "uModelViewMatrix" (uniform_values s) =
      Some (UMatrix (ModelView (0 + 16 / 1000) 1
                       (inject_Z 128 / inject_Z 128)
                       (inject_Z 114 / inject_Z 128))).
Proof.
  exact (update_turns_camera_of_next_frame 16 pageAfterInit pageParts
           page_initialised).
Defined.
(** *** Uniforms *)


Lemma gl_uniform_ignored (loc : option Location) (v : UniformValue)
    (c : GLContext) :
  (loc = None \/
   exists p name, loc = Some (p, name) /\ currentProgram c <> Some p) ->
  gl_uniform loc v c = c.
Proof.
  intros [-> | (p & name & -> & Hcur)]; [reflexivity|].
  unfold gl_uniform. destruct (currentProgram c) as [cp|]; [|reflexivity].
  destruct (Nat.eqb p cp) eqn:E; [|reflexivity].
  apply Nat.eqb_eq in E. subst cp. now contradiction Hcur.
Qed.





(** *** Render targets *)

(** X14: [new FrameBuffer] leaves the canvas as render target and no
    texture bound on the active unit ([detach] runs last); the target has
    the size asked for, [UNSIGNED_BYTE] color unless a type is given, and a
    depth buffer only if asked for; its objects carry handles not handed out
    before; nothing is cleared or drawn and the renderer is not touched. *)
Theorem new_FrameBuffer_detached (width height : Q) (hasDepthBuffer : bool)
    (type : option DataType) (wd : World) :
  exists (wd' : World) (f : FrameBuffer),
    new_FrameBuffer width height hasDepthBuffer type wd = (wd', Normal f) /\
    framebufferBinding (context wd') = None /\
    lookupN (activeTextureUnit (context wd')) (textureBindings (context wd'))
      = Some None /\
    fb_width f = width /\ fb_height f = height /\
    dataType f = match type with Some t => t | None => UNSIGNED_BYTE end /\
    (nextHandle (context wd) <= fb f < fbTexture f)%nat /\
    (fbTexture f < nextHandle (context wd'))%nat /\
    match depthBuffer f with
    | Some b =>
        hasDepthBuffer = true /\
        (fbTexture f < b < nextHandle (context wd'))%nat
    | None => hasDepthBuffer = false
    end /\
    events (context wd') = events (context wd) /\
    programs (context wd') = programs (context wd) /\
    this wd' = this wd.
Proof.
  destruct wd as [c r tx al ce].
  destruct c as [vw vh nh progs texs cp fbb atu tb dt df cd cc ev].
  unfold new_FrameBuffer, createTexture, FrameBuffer_detach.
  destruct hasDepthBuffer; repeat js_step; unfold ret;
    do 2 eexists; (split; [reflexivity|]);
    cbn [context this framebufferBinding activeTextureUnit textureBindings
         fb_width fb_height dataType fb fbTexture depthBuffer nextHandle
         events programs];
    rewrite lookupN_storeN_same; repeat split; lia.
Qed.

(** *** A frame too early *)

Lemma bind_throw {A B} (e : string) (f : A -> JSM B) (wd : World) :
  bind (throw e) f wd = (wd, Throw e).
Proof. reflexivity. Qed.

Lemma gl_useProgram_events (p : Handle) (c : GLContext) :
  events (gl_useProgram p c) = events c.
Proof.
  unfold gl_useProgram. destruct (lookupN p (programs c)) as [po|];
    [|reflexivity].
  now destruct (po_linked po && negb (po_deleted po))%bool.
Qed.

(** X15: [draw] on a renderer that has its context and shaders but no
    domain cube yet ([initVolumeGeometry] has not run) throws a [TypeError]
    while it sets the matrices: no target is cleared and nothing is
    drawn. *)
Theorem draw_before_geometry_throws (wd : World) (p : ShaderProgram)
    (a : Anim) :
  gl (this wd) = Some TheContext ->
  entryExitPoints (shaders (this wd)) = Some p ->
  anim (this wd) = Some a ->
  domainCube (this wd) = None ->
  exists wd' : World,
    draw wd = (wd', Throw "TypeError") /\
    events (context wd') = events (context wd) /\
    this wd' = this wd.
Proof.
  intros Hgl Hp Ha Hdc. destruct wd as [c r tx al ce].
  cbn [this context] in *.
  unfold draw, _setMatrices, ShaderProgram_use.
  rewrite bind_getThis. cbn [this]. rewrite Hgl, Hp.
  rewrite bind_deref, bind_glCall, bind_assoc, bind_getThis. cbn [this set_context].
  rewrite Ha, bind_assoc, bind_deref, Hdc.
  unfold deref. rewrite bind_assoc, bind_throw.
  eexists. split; [reflexivity|]. cbn [context this].
  split; [apply gl_useProgram_events | reflexivity].
Qed.

Lemma draw_before_geometry_throws_demo :
  exists wd' : World,
    draw pageAfterInitGL = (wd', Throw "TypeError") /\
    events (context wd') = events (context pageAfterInitGL) /\
    this wd' = this pageAfterInitGL.
Proof.
  eapply draw_before_geometry_throws; vm_compute; reflexivity.
Defined.

(** *** The atlas image and the frames *)

(** X16: when the atlas image finishes loading while the volume program is
    not the one in use (as before the first frame), the callback marks the
    texture as loaded but none of its four uniforms reaches the program:
    the uniform values of the volume program are what they were. *)
Theorem onload_needs_volume_program (wd : World) (x : Parts) (t : Handle)
    (img : Image) (l : bool) (imageWidth imageHeight : Z) :
  Initialised wd x ->
  currentProgram (context wd) <> Some (program (the_volume x)) ->
  texture wd = Some t ->
  lookupN t (textureObjects (context wd)) =
    Some {| image := Some img; isLoaded := l |} ->
  exists (wd' : World) (o : TextureObject),
    imageLoaded t imageWidth imageHeight wd = (wd', Normal tt) /\
    lookupN t (textureObjects (context wd')) = Some o /\
    isLoaded o = true /\
    programs (context wd') = programs (context wd) /\
    uniformsOf (context wd') (the_volume x) =
    uniformsOf (context wd) (the_volume x).
Proof.
  intros (Hthis & _ & [(po2 & L2 & U2) R2] & _) Hcur Htex Hobj.
  destruct wd as [c r tx al ce]. cbn [this context texture] in *.
  subst r tx.
  destruct x as [cv a f1 f2 t' p1 p2 dc q]. cbn [the_volume] in *.
  destruct p2 as [vs2 fs2 h2 at2 un2]. cbn [uniforms program] in *.
  subst un2.
  destruct c as [vw vh nh progs texs cp fbb atu tb dt df cd cc ev].
  cbn [programs currentProgram textureObjects] in *.
  unfold imageLoaded, uniformsOf. js_step. rewrite Hobj. cbv iota beta.
  unfold onload, ShaderProgram_setUniformInt, ShaderProgram_setUniformFloat.
  repeat (js_step;
          rewrite ?gl_uniform_ignored
            by (right; do 2 eexists; split; [reflexivity | exact Hcur])).
  unfold glCall; js_simpl; js_gl.
  rewrite gl_uniform_ignored
    by (right; do 2 eexists; split; [reflexivity | exact Hcur]).
  js_simpl.
  do 2 eexists. split; [reflexivity|].
  cbn [context textureObjects programs program].
  split; [apply lookupN_storeN_same|]. repeat split.
Qed.

Lemma onload_needs_volume_program_demo :
  exists (wd' : World) (o : TextureObject),
    imageLoaded 11%nat 1408 1408 pageAfterInit = (wd', Normal tt) /\
    lookupN 11%nat (textureObjects (context wd')) = Some o /\
    isLoaded o = true /\
    programs (context wd') = programs (context pageAfterInit) /\
    uniformsOf (context wd') (the_volume pageParts) =
    uniformsOf (context pageAfterInit) (the_volume pageParts).
Proof.
  eapply (onload_needs_volume_program pageAfterInit pageParts).
  - exact page_initialised.
  - vm_compute. discriminate.
  - vm_compute. reflexivity.
  - vm_compute. reflexivity.
Defined.

(** X17: the integration pass of a frame samples the volume only when the
    atlas has loaded: then the volume texture is bound to unit 2 and
    [uVolumeTexture] is 2 for the draw of the quad; before that the frame
    is drawn all the same, with [uVolumeTexture] left as it was. *)
Theorem draw_binds_volume_when_loaded (wd : World) (x : Parts) :
  Initialised wd x ->
  exists (wd' : World) (before : list Event) (s : Snapshot),
    draw wd = (wd', Normal tt) /\
    events (context wd') = (before ++ [Draw TRIANGLE_FAN 4 s])%list /\
    if volumeLoaded (context wd) (the_volume_texture x)
    then lookupN 2 (texture_units s) = Some (Some (the_volume_texture x)) /\
         lookupS "uVolumeTexture" (uniform_values s) = Some (UInt 2)
    else lookupS "uVolumeTexture" (uniform_values s) =
         lookupS "uVolumeTexture" (uniformsOf (context wd) (the_volume x)).
Proof.
  intros (Hthis & [(po1 & L1 & U1) R1] & [(po2 & L2 & U2) R2] & Hne).
  destruct wd as [c r tx al ce]. cbn [this context] in *. subst r.
  destruct x as [cv a f1 f2 t p1 p2 dc q].
  cbn [the_entryExitPoints the_volume] in *.
  destruct p1 as [vs1 fs1 h1 at1 un1], p2 as [vs2 fs2 h2 at2 un2].
  cbn [uniforms program] in *. subst un1 un2.
  destruct c as [vw vh nh progs texs cp fbb atu tb dt df cd cc ev].
  cbn [programs] in *.
  unfold uniformsOf, volumeLoaded.
  cbn [context the_volume the_volume_texture program programs textureObjects].
  rewrite L2.
  unfold draw, _setMatrices, ShaderProgram_use, FrameBuffer_attach,
    FrameBuffer_detach, FrameBuffer_bindAsTexture,
    ShaderProgram_setUniformMatrix, ShaderProgram_setUniformInt,
    VolumeCubeDomain_render, FullscreenQuad_render.
  repeat js_step.
  destruct (match lookupN t texs with
            | Some o => isLoaded o
            | None => false
            end); repeat js_step; unfold glCall; js_simpl; js_gl; js_simpl.
  - do 3 eexists. split; [reflexivity|]. cbn [context events].
    split; [reflexivity|]. cbn [texture_units uniform_values]. split.
    + apply lookupN_storeN_same.
    + apply lookupS_storeS_same.
  - do 3 eexists. split; [reflexivity|]. cbn [context events].
    split; [reflexivity|]. cbn [uniform_values].
    now rewrite !lookupS_storeS_other by reflexivity.
Qed.

Lemma page_after_load_initialised : Initialised pageAfterLoad pageParts.
Proof.
  eapply (imageLoaded_initialised 11%nat 1408 1408 pageAfterFirstFrame).
  - exact page_first_frame_initialised.
  - unfold pageAfterLoad. apply surjective_pairing.
Qed.

Lemma draw_binds_volume_when_loaded_demo :
  exists (wd' : World) (before : list Event) (s : Snapshot),
    draw pageAfterLoad = (wd', Normal tt) /\
    events (context wd') = (before ++ [Draw TRIANGLE_FAN 4 s])%list /\
    lookupN 2 (texture_units s) = Some (Some 11%nat) /\
    lookupS "uVolumeTexture" (uniform_values s) = Some (UInt 2).
Proof.
  destruct (draw_binds_volume_when_loaded pageAfterLoad pageParts
              page_after_load_initialised) as (wd' & before & s & H1 & H2 & H3).
  exists wd', before, s. split; [exact H1|]. split; [exact H2|].
  replace (volumeLoaded (context pageAfterLoad) (the_volume_texture pageParts))
    with true in H3 by (vm_compute; reflexivity).
  exact H3.
Defined.

(** *** What [initGL] returns *)

Abbreviation Safe1 := (Safe (fun _ => True)).

Lemma Untouched_refl (wd : World) : Untouched wd wd.
Proof. now repeat split. Qed.

Lemma Untouched_trans (w1 w2 w3 : World) :
  Untouched w1 w2 -> Untouched w2 w3 -> Untouched w1 w3.
Proof. intros (A & B & C) (D & E & F). repeat split; congruence. Qed.

Lemma Keeps_refl (wd : World) : Keeps wd wd.
Proof. split; [|split]; [reflexivity | reflexivity | apply Untouched_refl]. Qed.

Lemma Keeps_trans (w1 w2 w3 : World) : Keeps w1 w2 -> Keeps w2 w3 -> Keeps w1 w3.
Proof.
  intros (A & B & C) (D & E & F).
  split; [|split]; [congruence | congruence |].
  eapply Untouched_trans; eassumption.
Qed.

Lemma Safe_bind {A B} (P : A -> Prop) (Q : B -> Prop) (m : JSM A)
    (f : A -> JSM B) :
  Safe P m -> (forall a, P a -> Safe Q (f a)) -> Safe Q (bind m f).
Proof.
  intros Hm Hf wd. destruct (Hm wd) as (wd1 & a & E & Pa & K1).
  destruct (Hf a Pa wd1) as (wd2 & b & E2 & Qb & K2).
  exists wd2, b. unfold bind. rewrite E.
  split; [exact E2|]. split; [exact Qb | eapply Keeps_trans; eassumption].
Qed.

Lemma Safe1_bind {A B} (m : JSM A) (f : A -> JSM B) :
  Safe1 m -> (forall a, Safe1 (f a)) -> Safe1 (bind m f).
Proof. intros Hm Hf. eapply Safe_bind; [exact Hm | intros a _; apply Hf]. Qed.

Lemma Safe_ret {A} (P : A -> Prop) (a : A) : P a -> Safe P (ret a).
Proof.
  intros Pa wd. exists wd, a.
  split; [reflexivity|]. split; [exact Pa | apply Keeps_refl].
Qed.

(** A call into the context keeps the above unless it draws or clears. *)
Lemma Safe_glCall (g : GLContext -> GLContext) :
  (forall c, events (g c) = events c) -> Safe1 (glCall g).
Proof.
  intros Hg wd. do 2 eexists. split; [reflexivity|]. split; [exact I|].
  split; [|split]; [reflexivity | reflexivity |].
  split; [|split]; [reflexivity | reflexivity | apply Hg].
Qed.

Lemma Safe_getGL : Safe1 getGL.
Proof. intros wd. do 2 eexists. now repeat split. Qed.

Lemma Safe_createObject : Safe1 createObject.
Proof. intros wd. do 2 eexists. now repeat split. Qed.

Lemma Safe_alert (msg : string) : Safe1 (alert msg).
Proof. intros wd. do 2 eexists. now repeat split. Qed.

Lemma Safe_updThis (g : VolumeRenderer -> VolumeRenderer) :
  (forall r, gl (g r) = gl r /\ canvas (g r) = canvas r /\
             domainCube (g r) = domainCube r) ->
  Safe1 (updThis g).
Proof.
  intros Hg wd. do 2 eexists. split; [reflexivity|]. split; [exact I|].
  destruct (Hg (this wd)) as (A & B & C).
  split; [|split]; [exact A | exact B |].
  split; [|split]; [exact C | reflexivity | reflexivity].
Qed.

Lemma Throws_here {A B} (m : JSM A) (f : A -> JSM B) :
  Throws m -> Throws (bind m f).
Proof.
  intros Hm wd. destruct (Hm wd) as (wd' & e & E & K).
  exists wd', e. unfold bind. now rewrite E.
Qed.

Lemma Throws_later {A B} (P : A -> Prop) (m : JSM A) (f : A -> JSM B) :
  Safe P m -> (forall a, P a -> Throws (f a)) -> Throws (bind m f).
Proof.
  intros Hm Hf wd. destruct (Hm wd) as (wd1 & a & E & Pa & K1).
  destruct (Hf a Pa wd1) as (wd2 & e & E2 & K2).
  exists wd2, e. unfold bind. rewrite E.
  split; [exact E2 | eapply Keeps_trans; eassumption].
Qed.

(** No event is logged by a context update that is a chain of setters. *)
Ltac no_event :=
  intros ?; cbv beta;
  repeat match goal with
    | |- context [match ?x with _ => _ end] => destruct x
    end;
  reflexivity.

(** Walks through a sequence of statements; [leaf] closes the calls. *)
Ltac safe_with leaf :=
  repeat lazymatch goal with
    | |- Safe _ (bind _ _) => apply Safe1_bind; [|intros ?]
    | |- Safe _ (ret _) => apply Safe_ret; exact I
    | |- Safe _ (updThis _) =>
        apply Safe_updThis; intros ?; repeat split; reflexivity
    | |- Safe _ (glCall _) => apply Safe_glCall; no_event
    | |- Safe _ getGL => apply Safe_getGL
    | |- Safe _ createObject => apply Safe_createObject
    | |- Safe _ (alert _) => apply Safe_alert
    | |- Safe _ (if ?b then _ else _) => destruct b
    | |- _ => leaf
    end.

Ltac safe := safe_with fail.

Lemma Safe_createProgram : Safe1 createProgram.
Proof. unfold createProgram. safe. Qed.

Lemma Safe_createTexture : Safe1 createTexture.
Proof. unfold createTexture. safe. Qed.

Lemma Safe_new_FrameBuffer (wdt hgt : Q) (hasDepth : bool)
    (type : option DataType) :
  Safe1 (new_FrameBuffer wdt hgt hasDepth type).
Proof.
  unfold new_FrameBuffer, FrameBuffer_detach.
  safe_with ltac:(apply Safe_createTexture).
Qed.

Lemma Safe__initFramebuffers : Safe1 _initFramebuffers.
Proof.
  unfold _initFramebuffers. safe_with ltac:(apply Safe_new_FrameBuffer).
Qed.

Lemma Safe_new_FullscreenQuad : Safe1 new_FullscreenQuad.
Proof. unfold new_FullscreenQuad. safe. Qed.

Lemma Safe_registerAttribute (name : string) (p : ShaderProgram) :
  Safe1 (ShaderProgram_registerAttribute name p).
Proof. unfold ShaderProgram_registerAttribute. safe. Qed.

Lemma Safe_registerUniform (name : string) (p : ShaderProgram) :
  Safe1 (ShaderProgram_registerUniform name p).
Proof. unfold ShaderProgram_registerUniform. safe. Qed.

Lemma bind_normal {A B} (m : JSM A) (f : A -> JSM B) (wd wd' : World)
    (a : A) :
  m wd = (wd', Normal a) -> bind m f wd = f a wd'.
Proof. intros E. unfold bind. now rewrite E. Qed.

Lemma bind_thrown {A B} (m : JSM A) (f : A -> JSM B) (wd wd' : World)
    (e : string) :
  m wd = (wd', Throw e) -> bind m f wd = (wd', Throw e).
Proof. intros E. unfold bind. now rewrite E. Qed.

Section Browser.

Variable webglAvailable : bool.
Variable floatTextures : bool.
Variable compiles : string -> bool.
Variable links : string -> string -> bool.
Variable strictBindings : bool.

Lemma Safe__createShader (shaderId : string) (type : ShaderType) :
  Safe (fun o => (compiles shaderId = true -> o <> None) /\
                 (compiles shaderId = false -> o = None))
       (_createShader compiles shaderId type).
Proof.
  unfold _createShader. destruct (compiles shaderId).
  - apply Safe_ret. split; [discriminate | discriminate].
  - eapply Safe_bind; [apply Safe_alert|]. intros _ _.
    apply Safe_ret. split; [discriminate | reflexivity].
Qed.

Lemma Safe_attachShader (p : Handle) (shader : option Shader) :
  shader <> None \/ strictBindings = false ->
  Safe1 (attachShader strictBindings p shader).
Proof.
  intros H. unfold attachShader. destruct shader as [[type shaderId]|].
  - apply Safe_glCall. no_event.
  - destruct H as [H | ->]; [now contradiction H|]. now apply Safe_ret.
Qed.

Lemma Throws_attachShader (p : Handle) :
  strictBindings = true -> Throws (attachShader strictBindings p None).
Proof.
  intros -> wd. exists wd, "TypeError". split; [reflexivity|].
  apply Keeps_refl.
Qed.

(** After the two [attachShader] calls nothing in the constructor throws. *)
Lemma Safe_link_and_finish (v f : option Shader) (p : Handle) :
  Safe1 (linkProgram links p ;;
         linked <- getLinkStatus p ;;
         (if negb linked
          then alert "Error in program linking:" ;; deleteProgram p
          else ret tt) ;;
         ret {| vs := v; fs := f; program := p;
                attributes := []; uniforms := [] |}).
Proof.
  unfold linkProgram, getLinkStatus, deleteProgram. safe.
Qed.

Lemma Safe_new_ShaderProgram (v f : string) :
  strictBindings = false \/ (compiles v = true /\ compiles f = true) ->
  Safe1 (new_ShaderProgram compiles links strictBindings v f).
Proof.
  intros H. unfold new_ShaderProgram.
  eapply Safe_bind; [apply Safe__createShader|]. intros vs [Hv _].
  eapply Safe_bind; [apply Safe__createShader|]. intros fs [Hf _].
  apply Safe1_bind; [apply Safe_createProgram|]. intros p.
  apply Safe1_bind.
  { apply Safe_attachShader. destruct H as [H | [H _]]; auto. }
  intros _. apply Safe1_bind.
  { apply Safe_attachShader. destruct H as [H | [_ H]]; auto. }
  intros _. apply Safe_link_and_finish.
Qed.

Lemma Throws_new_ShaderProgram (v f : string) :
  strictBindings = true -> compiles v && compiles f = false ->
  Throws (new_ShaderProgram compiles links strictBindings v f).
Proof.
  intros Hs Hc. unfold new_ShaderProgram.
  eapply Throws_later; [apply Safe__createShader|]. intros vs [Hv1 Hv0].
  eapply Throws_later; [apply Safe__createShader|]. intros fs [Hf1 Hf0].
  eapply Throws_later; [apply Safe_createProgram|]. intros p _.
  destruct (compiles v) eqn:Ev.
  - cbn in Hc. rewrite (Hf0 Hc).
    eapply Throws_later.
    + apply Safe_attachShader. left. now apply Hv1.
    + intros _ _. apply Throws_here. now apply Throws_attachShader.
  - rewrite (Hv0 eq_refl). apply Throws_here. now apply Throws_attachShader.
Qed.

Lemma _initShaders_safe (wd : World) :
  shadersAttach compiles strictBindings = true ->
  gl (this wd) = Some TheContext ->
  exists wd', _initShaders compiles links strictBindings wd = (wd', Normal tt)
              /\ Keeps wd wd'.
Proof.
  intros Hok Hgl. unfold _initShaders. rewrite bind_getThis, Hgl.
  assert (H1 : strictBindings = false \/
               (compiles "entry-exitpoints-vs" = true /\
                compiles "entry-exitpoints-fs" = true)).
  { unfold shadersAttach in Hok. destruct strictBindings; [right | now left].
    cbn in Hok. apply andb_true_iff in Hok. destruct Hok as [Hok _].
    now apply andb_true_iff in Hok. }
  assert (H2 : strictBindings = false \/
               (compiles "volume-vs" = true /\ compiles "volume-fs" = true)).
  { unfold shadersAttach in Hok. destruct strictBindings; [right | now left].
    cbn in Hok. apply andb_true_iff in Hok. destruct Hok as [_ Hok].
    now apply andb_true_iff in Hok. }
  match goal with
  | |- exists wd', ?m wd = _ /\ _ =>
      assert (S : Safe1 m)
        by safe_with ltac:(first
             [ apply Safe_registerAttribute
             | apply Safe_registerUniform
             | apply Safe_new_ShaderProgram; assumption ])
  end.
  destruct (S wd) as (wd' & [] & E & _ & K). now exists wd'.
Qed.

Lemma _initShaders_throws (wd : World) :
  shadersAttach compiles strictBindings = false ->
  gl (this wd) = Some TheContext ->
  exists wd' e,
    _initShaders compiles links strictBindings wd = (wd', Throw e)
    /\ Keeps wd wd'.
Proof.
  intros Hno Hgl. unfold _initShaders. rewrite bind_getThis, Hgl.
  unfold shadersAttach in Hno. apply orb_false_iff in Hno.
  destruct Hno as [Hs Hc]. apply negb_false_iff in Hs.
  match goal with
  | |- exists wd' e, ?m wd = _ /\ _ => assert (T : Throws m)
  end.
  { destruct (compiles "entry-exitpoints-vs" && compiles "entry-exitpoints-fs")
      eqn:E1.
    - cbn in Hc. apply andb_true_iff in E1.
      eapply Throws_later.
      { apply Safe_new_ShaderProgram. right. exact E1. }
      intros p _.
      eapply Throws_later; [apply Safe_registerAttribute | intros ? _].
      do 2 (eapply Throws_later; [apply Safe_registerUniform | intros ? _]).
      eapply Throws_later; [safe | intros _ _].
      apply Throws_here. now apply Throws_new_ShaderProgram.
    - apply Throws_here. now apply Throws_new_ShaderProgram. }
  apply T.
Qed.

(** [initGL] from any page: what it returns and what it leaves. *)
Lemma initGL_run (cv : Canvas) (wd : World) :
  let ok := webglAvailable && floatTextures
            && shadersAttach compiles strictBindings in
  exists wd' : World,
    initGL webglAvailable floatTextures compiles links strictBindings cv wd
      = (wd', Normal ok) /\
    gl (this wd') = (if ok then Some TheContext else None) /\
    canvas (this wd') = (if ok then Some cv else None) /\
    Untouched wd wd'.
Proof.
  intros ok. unfold ok, initGL.
  destruct webglAvailable;
    [|eexists; split; [reflexivity|]; now repeat split].
  destruct floatTextures;
    [|eexists; split; [reflexivity|]; now repeat split].
  cbn [andb].
  set (wd1 :=
         set_this
           (set_anim (Some {| angle := 0 |})
              (set_gl (Some TheContext) (set_canvas (Some cv) (this wd))))
           (set_context
              (set_viewportHeight (canvas_height cv)
                 (set_viewportWidth (canvas_width cv) (context wd))) wd)).
  assert (Hgl1 : gl (this wd1) = Some TheContext) by reflexivity.
  assert (Hcv1 : canvas (this wd1) = Some cv) by reflexivity.
  assert (U1 : Untouched wd wd1) by now repeat split.
  match goal with
  | |- exists wd', bind (tryCatch ?body ?handler) ?k wd = _ /\ _ =>
      assert (Hbody :
        body wd =
        bind (_initShaders compiles links strictBindings)
          (fun _ =>
             _initFramebuffers ;;
             q <- new_FullscreenQuad ;;
             updThis (set_viewportQuad (Some q))) wd1)
        by reflexivity
  end.
  destruct (shadersAttach compiles strictBindings) eqn:Hattach.
  - destruct (_initShaders_safe wd1 Hattach Hgl1) as (wd2 & E2 & K2).
    assert (S : Safe1 (_initFramebuffers ;;
                       q <- new_FullscreenQuad ;;
                       updThis (set_viewportQuad (Some q)))).
    { safe_with ltac:(first [ apply Safe__initFramebuffers
                            | apply Safe_new_FullscreenQuad ]). }
    destruct (S wd2) as (wd3 & [] & E3 & _ & K3).
    destruct (Keeps_trans _ _ _ K2 K3) as (Kg & Kc & U3).
    exists wd3. unfold bind at 1, tryCatch. rewrite Hbody.
    rewrite (bind_normal _ _ _ _ _ E2), E3.
    unfold bind, getThis, ret. rewrite Kg, Kc, Hgl1, Hcv1.
    split; [reflexivity|]. split; [reflexivity|]. split; [reflexivity|].
    exact (Untouched_trans _ _ _ U1 U3).
  - destruct (_initShaders_throws wd1 Hattach Hgl1)
      as (wd2 & e & E2 & (_ & _ & U2)).
    eexists. unfold bind at 1, tryCatch. rewrite Hbody.
    rewrite (bind_thrown _ _ _ _ _ E2).
    split; [reflexivity|]. split; [reflexivity|]. split; [reflexivity|].
    apply (Untouched_trans _ _ _ U1) in U2.
    destruct U2 as (A & B & C). now repeat split.
Qed.

(** X18: whatever the page was before, [initGL] returns [true] exactly when
    the canvas gives a WebGL context, [OES_texture_float] is there, and no
    [attachShader] throws (the binding does not throw on [null], or all four
    shaders compile).  It then holds the context and the canvas and
    otherwise neither, and it draws nothing.  Whether the programs link
    plays no part. *)
Theorem initGL_outcome (cv : Canvas) (wd : World) :
  let ok := webglAvailable && floatTextures
            && shadersAttach compiles strictBindings in
  exists wd' : World,
    initGL webglAvailable floatTextures compiles links strictBindings cv wd
      = (wd', Normal ok) /\
    gl (this wd') = (if ok then Some TheContext else None) /\
    canvas (this wd') = (if ok then Some cv else None) /\
    events (context wd') = events (context wd).
Proof.
  intros ok. destruct (initGL_run cv wd) as (wd' & E & Hg & Hc & _ & _ & He).
  exists wd'. exact (conj E (conj Hg (conj Hc He))).
Qed.

(** X19: when [initGL] fails, for whichever reason, [main()] ends with the
    alert and returns: no geometry is set up, no texture is requested, and
    nothing is drawn. *)
Theorem main_gives_up_after_failed_initGL (wd : World) :
  webglAvailable && floatTextures && shadersAttach compiles strictBindings
    = false ->
  exists (wd' : World) (earlier : list string),
    main webglAvailable floatTextures compiles links strictBindings wd
      = (wd', Normal tt) /\
    alerts wd' = (earlier ++ ["Sorry, could not initialize WebGL"])%list /\
    gl (this wd') = None /\
    domainCube (this wd') = None /\
    texture wd' = texture wd /\
    events (context wd') = events (context wd).
Proof.
  intros Hfail. unfold main. rewrite bind_updThis.
  match goal with
  | |- exists wd' earlier, bind _ _ ?w0 = _ /\ _ => set (wd0 := w0)
  end.
  destruct (initGL_run pageCanvas wd0) as (wd1 & E & Hg & _ & Hd & Ht & He).
  cbv zeta in E. rewrite Hfail in E, Hg.
  rewrite (bind_normal _ _ _ _ _ E). cbn [negb].
  exists (set_alerts (alerts wd1 ++ ["Sorry, could not initialize WebGL"]) wd1),
         (alerts wd1).
  split; [reflexivity|]. split; [reflexivity|].
  split; [exact Hg|]. split; [exact Hd|]. split; [exact Ht | exact He].
Qed.

End Browser.

Lemma main_gives_up_after_failed_initGL_demo :
  exists (wd' : World) (earlier : list string),
    main true false (fun _ => true) (fun _ _ => true) true startWorld
      = (wd', Normal tt) /\
    alerts wd' = (earlier ++ ["Sorry, could not initialize WebGL"])%list /\
    gl (this wd') = None /\
    domainCube (this wd') = None /\
    texture wd' = texture startWorld /\
    events (context wd') = events (context startWorld).
Proof.
  apply (main_gives_up_after_failed_initGL true false (fun _ => true)
           (fun _ _ => true) true startWorld).
  reflexivity.
Defined.

End RendererExtras.
